(** * eis_toolkit: vector rasterisation and kriging interpolation

    A shallow embedding of
      - [eis_toolkit/vector_processing/rasterize.py]
      - [eis_toolkit/vector_processing/kriging_interpolation.py]
    together with the parts of their collaborators (pandas/geopandas data
    frames, shapely geometries, the [affine] package, numpy, rasterio and
    pykrige) that the two modules call.

    Numbers: Python floats are idealised as exact rationals [Q]; values that
    the code only copies are compared with Leibniz equality, values that it
    computes with [==].  Integers (grid sizes, array indices) are [Z] and
    [nat].

    Effects: both entry points run in a small state-and-exception monad.
    The state holds the store of caller-owned data frames (the rasteriser
    assigns to a column of its argument) and a log of the calls made to the
    numerical collaborators (buffering, burn-in, variogram fitting and grid
    evaluation). *)

From Stdlib Require Import QArith Qround Qminmax Qabs ZArith Lia Lqa String List.
From Stdlib Require Import Permutation.
From stdpp Require Import base option list gmap strings.

Local Open Scope Q_scope.
Local Open Scope string_scope.
Local Open Scope list_scope.

(** ** Python builtins *)

Module Py.

(** Values interpolated into the messages of raised exceptions. *)
Inductive pyval :=
| PStr (s : string)
| PNum (q : Q)
| PKw (name : string) (q : Q).      (* dict(name=q) *)

(** An f-string: literal text and interpolated values, in order. *)
Inductive fragment :=
| Lit (s : string)
| Val (v : pyval).

Definition message := list fragment.

(** The exceptions raised by the two modules and by the collaborators they
    call.  [EmptyDataFrameException] and [InvalidParameterValueException]
    come from [eis_toolkit.exceptions]; the others are Python's own. *)
Inductive exn :=
| EmptyDataFrameException (msg : message)
| InvalidParameterValueException (msg : message)
| ValueError (msg : message)
| AttributeError (msg : message)
| TypeError (msg : message)
| KeyError (msg : message)
| IndexError (msg : message)
| ReferenceError (msg : message)
| LinAlgError (msg : message).

Definition exn_message (e : exn) : message :=
  match e with
  | EmptyDataFrameException m | InvalidParameterValueException m
  | ValueError m | AttributeError m | TypeError m | KeyError m
  | IndexError m | ReferenceError m | LinAlgError m => m
  end.

(** [is_substring p s]: [p] occurs in [s]. *)
Definition is_substring (p s : string) : bool :=
  match String.index 0 p s with
  | Some _ => true
  | None => false
  end.

(** The literal text of a message names the parameter [p]. *)
Definition mentions (p : string) (m : message) : bool :=
  existsb (fun fr => match fr with Lit s => is_substring p s | Val _ => false end) m.

(** [x in xs] for a sequence of strings. *)
Definition py_in (x : string) (xs : list string) : bool :=
  existsb (String.eqb x) xs.

(** [round(x)] with one argument: nearest integer, ties to the even one. *)
Definition round (x : Q) : Z :=
  let fl := Qfloor x in
  match Qcompare (x - inject_Z fl) (1 # 2) with
  | Lt => fl
  | Gt => (fl + 1)%Z
  | Eq => if Z.even fl then fl else (fl + 1)%Z
  end.

End Py.

(** The outcome of a call: a value, or a raised exception. *)
Inductive result (A : Type) :=
| Ok (a : A)
| Raise (e : Py.exn).
Arguments Ok {A} a.
Arguments Raise {A} e.

(** ** The [affine] package and [rasterio.transform] *)

Module Affine.

(** [Affine(a, b, c, d, e, f)]: x = a*col + b*row + c, y = d*col + e*row + f. *)
Record t := mk { a : Q; b : Q; c : Q; d : Q; e : Q; f : Q }.

Definition translation (xoff yoff : Q) : t := mk 1 0 xoff 0 1 yoff.

Definition scale (sx sy : Q) : t := mk sx 0 0 0 sy 0.

(** [Affine.__mul__] on two transforms. *)
Definition mul (s o : t) : t :=
  mk (a s * a o + b s * d o)
     (a s * b o + b s * e o)
     (a s * c o + b s * f o + c s)
     (d s * a o + e s * d o)
     (d s * b o + e s * e o)
     (d s * c o + e s * f o + f s).

(** [rasterio.transform.from_bounds(west, south, east, north, width, height)].
    Division by a zero width or height yields nan in Python; [Q] yields 0
    there, and nothing below is stated about that case. *)
Definition from_bounds (west south east north width height : Q) : t :=
  mul (translation west north)
      (scale ((east - west) / width) ((south - north) / height)).

(** World coordinates of the centre of cell (row, col). *)
Definition cell_centre (tr : t) (row col : nat) : Q * Q :=
  let cx := inject_Z (Z.of_nat col) + (1 # 2) in
  let cy := inject_Z (Z.of_nat row) + (1 # 2) in
  (a tr * cx + b tr * cy + c tr, d tr * cx + e tr * cy + f tr).

End Affine.

(** ** numpy *)

Module Np.

(** A two-dimensional array, row-major. *)
Abbreviation ndarray := (list (list Q)) (only parsing).

Definition nrows (arr : ndarray) : nat := length arr.

(** All rows have [w] entries. *)
Definition has_width (w : nat) (arr : ndarray) : Prop :=
  Forall (fun row => length row = w) arr.

Definition cells (arr : ndarray) : nat := length (concat arr).

Definition cell (arr : ndarray) (r c : nat) : option Q :=
  arr !! r ≫= (fun row => row !! c).

(** [np.full((h, w), fill)], as [np.empty] followed by [fill]. *)
Definition full (h w : nat) (fill : Q) : ndarray :=
  replicate h (replicate w fill).

(** [np.linspace(start, stop, num)] with the default [endpoint=True]:
    [num] evenly spaced samples, the last one set to [stop] when there is
    more than one; a negative [num] is refused. *)
Definition linspace (start stop : Q) (num : Z) : result (list Q) :=
  if (num <? 0)%Z then
    Raise (Py.ValueError [Py.Lit "Number of samples, "; Py.Val (Py.PNum (inject_Z num));
                          Py.Lit ", must be non-negative."])
  else
    let n := Z.to_nat num in
    let div := inject_Z (num - 1) in
    let step := (stop - start) / div in
    let y := map (fun i => inject_Z (Z.of_nat i) * step + start) (seq 0 n) in
    Ok (if (1 <? n)%nat then <[ Nat.pred n := stop ]> y else y).

(** [numpy.ma]: a masked array is data plus a mask; [getdata] forgets the
    mask. *)
Record masked_array := mk_masked { ma_data : ndarray; ma_mask : list (list bool) }.

Definition getdata (m : masked_array) : ndarray := ma_data m.

End Np.

(** ** Interfaces of the geometric and numerical collaborators *)

(** What the two modules use of a shapely geometry: its bounding box
    [(minx, miny, maxx, maxy)], [geom.buffer(distance)], and [geom.x],
    [geom.y], which only a point has. *)
Class Shapely (G : Type) := {
  bounds : G -> Q * Q * Q * Q;
  buffer : G -> Q -> G;
  point_xy : G -> option (Q * Q)
}.

(** The footprint GDAL burns for a geometry on the grid of a transform:
    [covers g tr row col] holds when cell (row, col) is written.  The
    releases of rasterio differ on an empty list of shapes: 1.3 refuses it
    with a [ValueError], 1.4 returns the filled array;
    [refuses_no_shapes] tells which. *)
Class Rasterio (G : Type) := {
  covers : G -> Affine.t -> nat -> nat -> bool;
  refuses_no_shapes : bool
}.

Inductive variogram_model :=
| linear | power | gaussian | spherical | exponential | hole_effect.

Inductive method := ordinary | universal.

(** pykrige: the constructors fit the variogram, [execute("grid", xs, ys)]
    evaluates the fitted model on the grid and returns the (possibly masked)
    estimates and their variances. *)
Class PyKrige := {
  kmodel : Type;
  OrdinaryKriging : list Q -> list Q -> list Q -> variogram_model -> result kmodel;
  UniversalKriging :
    list Q -> list Q -> list Q -> variogram_model -> list string -> result kmodel;
  execute_grid : kmodel -> list Q -> list Q -> result (Np.masked_array * Np.ndarray)
}.

(** pykrige's documented shape of the grid estimates: one row per y node,
    one column per x node. *)
Definition execute_shape_ok {PK : PyKrige} : Prop :=
  forall (m : kmodel) (gx gy : list Q) z ss,
    execute_grid m gx gy = Ok (z, ss) ->
    Np.nrows (Np.ma_data z) = length gy /\
    Np.has_width (length gx) (Np.ma_data z).

(** Calls to the numerical collaborators, in the order they are made. *)
Inductive event :=
| EvBuffer (distance : Q)                    (* geom.buffer *)
| EvRasterize (out_shape : Z * Z)            (* features.rasterize *)
| EvFit (m : method) (samples : nat)         (* OrdinaryKriging / UniversalKriging *)
| EvExecute (grid_x grid_y : list Q).        (* execute("grid", grid_x, grid_y) *)

(** Values of the metadata dictionaries. *)
Inductive meta_val :=
| MTransform (tr : Affine.t)
| MNum (q : Q)
| MInt (z : Z)
| MCrs (c : option Z).

(** [rasterio.profiles.Profile], as far as it is read. *)
Record Profile := {
  p_width : Q;
  p_height : Q;
  p_transform : Affine.t
}.

Definition Qltb (x y : Q) : bool :=
  match Qcompare x y with Lt => true | _ => false end.

Definition Qleb (x y : Q) : bool :=
  match Qcompare x y with Gt => false | _ => true end.

(** ** Data frames *)

Section Frames.
Context {G : Type}.

(** A value held in a column. *)
Inductive cellval :=
| CNum (q : Q)
| CGeom (g : G).

(** A GeoDataFrame: a coordinate reference system (an EPSG code, or none),
    the geometry column, and the numeric attribute columns by name. *)
Record GeoDataFrame := {
  crs : option Z;
  geometry : list G;
  attrs : list (string * list Q)
}.

(** [df.shape[0]] *)
Definition df_len (df : GeoDataFrame) : nat := length (geometry df).

(** [df.columns] *)
Definition df_columns (df : GeoDataFrame) : list string :=
  map fst (attrs df) ++ ["geometry"].

Fixpoint assoc (name : string) (cols : list (string * list Q)) : option (list Q) :=
  match cols with
  | [] => None
  | (k, v) :: rest => if String.eqb k name then Some v else assoc name rest
  end.

(** [df[name].values] *)
Definition getitem (df : GeoDataFrame) (name : string) : option (list cellval) :=
  if String.eqb name "geometry" then Some (map CGeom (geometry df))
  else option_map (map CNum) (assoc name (attrs df)).

(** [df["geometry"] = gs] *)
Definition set_geometry (df : GeoDataFrame) (gs : list G) : GeoDataFrame :=
  {| crs := crs df; geometry := gs; attrs := attrs df |}.

(** Every attribute column has one value per row, and none is called
    "geometry". *)
Definition df_wf (df : GeoDataFrame) : Prop :=
  Forall (fun col => length (snd col) = df_len df /\ fst col <> "geometry")
         (attrs df).

(** Conversion of a column to a float array, as numpy does it. *)
Fixpoint as_floats (vs : list cellval) : option (list Q) :=
  match vs with
  | [] => Some []
  | CNum q :: rest => option_map (cons q) (as_floats rest)
  | CGeom _ :: _ => None
  end.

Definition union_bounds (b1 b2 : Q * Q * Q * Q) : Q * Q * Q * Q :=
  let '(x0, y0, x1, y1) := b1 in
  let '(u0, v0, u1, v1) := b2 in
  (Qmin x0 u0, Qmin y0 v0, Qmax x1 u1, Qmax y1 v1).

(** [df.total_bounds]; an empty frame has nan bounds, here [None]. *)
Definition total_bounds {SG : Shapely G} (df : GeoDataFrame) : option (Q * Q * Q * Q) :=
  match geometry df with
  | [] => None
  | g :: gs => Some (fold_left union_bounds (map bounds gs) (bounds g))
  end.

End Frames.
Arguments cellval G : clear implicits.
Arguments GeoDataFrame G : clear implicits.

(** ** rasterio.features.rasterize *)

Section Burn.
Context {G : Type} {RG : Rasterio G}.

(** An item of the [shapes] iterable: a geometry, or a (geometry, value)
    pair. *)
Inductive shape :=
| Bare (g : G)
| Valued (g : G) (v : cellval G).

(** The value burned for an item; a value that is not a number is refused. *)
Definition shape_pair (default_value : Q) (s : shape) : option (G * Q) :=
  match s with
  | Bare g => Some (g, default_value)
  | Valued g (CNum q) => Some (g, q)
  | Valued g (CGeom _) => None
  end.

Fixpoint shape_pairs (default_value : Q) (shapes : list shape) : option (list (G * Q)) :=
  match shapes with
  | [] => Some []
  | s :: rest =>
      match shape_pair default_value s, shape_pairs default_value rest with
      | Some p, Some ps => Some (p :: ps)
      | _, _ => None
      end
  end.

(** Burning one geometry: every cell of its footprint takes its value, the
    other cells keep theirs (rasterio's default [MergeAlg.replace]). *)
Definition burn (tr : Affine.t) (out : Np.ndarray) (gv : G * Q) : Np.ndarray :=
  imap (fun r row => imap (fun c old => if covers (fst gv) tr r c then snd gv else old) row)
       out.

(** [features.rasterize(shapes, fill=, default_value=, transform=, out_shape=)]:
    the output starts as [fill] everywhere and the shapes are burned in the
    order of the iterable.  A value that is no number is a [TypeError]; a
    grid without cells is refused; an empty list of shapes is refused or
    leaves the filled array, by the release. *)
Definition features_rasterize (shapes : list shape) (fill default_value : Q)
    (transform : Affine.t) (out_shape : Z * Z) : result Np.ndarray :=
  match shape_pairs default_value shapes with
  | None => Raise (Py.TypeError [Py.Lit "float() argument must be a string or a real number"])
  | Some valid_shapes =>
      if refuses_no_shapes && (length valid_shapes =? 0)%nat then
        Raise (Py.ValueError [Py.Lit "No valid geometry objects found for rasterize"])
      else
        let '(h, w) := out_shape in
        if ((h <? 0) || (w <? 0))%Z then
          Raise (Py.ValueError [Py.Lit "negative dimensions are not allowed"])
        else if ((h =? 0) || (w =? 0))%Z then
          Raise (Py.ValueError [Py.Lit "width and height must be > 0"])
        else
          Ok (fold_left (burn transform) valid_shapes
                        (Np.full (Z.to_nat h) (Z.to_nat w) fill))
  end.

End Burn.
Arguments shape G : clear implicits.

(** ** The state-and-exception monad *)

Section Monad.
Context {G : Type}.

(** The store of data frames, by reference, and the log of collaborator
    calls. *)
Record world := {
  heap : gmap nat (GeoDataFrame G);
  trace : list event
}.

Definition M (A : Type) : Type := world -> result A * world.

Definition ret {A} (a : A) : M A := fun w => (Ok a, w).

Definition bind {A B} (m : M A) (k : A -> M B) : M B :=
  fun w =>
    match m w with
    | (Ok a, w') => k a w'
    | (Raise e, w') => (Raise e, w')
    end.

Definition raise {A} (e : Py.exn) : M A := fun w => (Raise e, w).

Definition lift {A} (r : result A) : M A := fun w => (r, w).

Definition log (ev : event) : M unit :=
  fun w => (Ok tt, {| heap := heap w; trace := trace w ++ [ev] |}).

(** Reading the object a reference points to. *)
Definition deref (ref : nat) : M (GeoDataFrame G) :=
  fun w =>
    match heap w !! ref with
    | Some df => (Ok df, w)
    | None => (Raise (Py.ReferenceError [Py.Lit "no such object"]), w)
    end.

(** [ref["geometry"] = gs]: assignment to a column of the referenced frame. *)
Definition setitem_geometry (ref : nat) (gs : list G) : M unit :=
  fun w =>
    match heap w !! ref with
    | Some df =>
        (Ok tt, {| heap := <[ ref := set_geometry df gs ]> (heap w); trace := trace w |})
    | None => (Raise (Py.ReferenceError [Py.Lit "no such object"]), w)
    end.

Fixpoint mapM {A B} (f : A -> M B) (l : list A) : M (list B) :=
  match l with
  | [] => ret []
  | a :: rest => bind (f a) (fun b => bind (mapM f rest) (fun bs => ret (b :: bs)))
  end.

End Monad.
Arguments world G : clear implicits.
Arguments M G A : clear implicits.

Declare Scope py_scope.
Delimit Scope py_scope with py.
Notation "'let*' x ':=' m 'in' k" := (bind m (fun x => k))
  (at level 10, x pattern, m at level 100, k at level 200) : py_scope.
Notation "m ';;' k" := (bind m (fun _ => k))
  (at level 100, k at level 200, right associativity) : py_scope.

(** ** rasterize.py *)

Section Toolkit.
Context {G : Type} {SG : Shapely G} {RG : Rasterio G} {PK : PyKrige}.
Local Open Scope py_scope.

Definition dict := gmap string meta_val.

(** [geodataframe["geometry"].apply(lambda geom: geom.buffer(buffer_value))] *)
Definition apply_buffer (geoms : list G) (buffer_value : Q) : M G (list G) :=
  mapM (fun geom => log (EvBuffer buffer_value) ;; ret (buffer geom buffer_value)) geoms.

(** [_transform_from_geometries]; [None] stands for the nan width, height
    and transform obtained from the nan bounds of an empty frame. *)
Definition _transform_from_geometries (geodataframe : GeoDataFrame G) (resolution : Q)
  : option (Q * Q * Affine.t) :=
  match total_bounds geodataframe with
  | None => None
  | Some (min_x, min_y, max_x, max_y) =>
      let width := (max_x - min_x) / resolution in
      let height := (max_y - min_y) / resolution in
      let out_transform := Affine.from_bounds min_x min_y max_x max_y width height in
      Some (width, height, out_transform)
  end.

Definition _rasterize_vector (geodataframe : nat) (value_column : option string)
    (default_value fill_value : Q) (base_raster_profile : option Profile)
    (resolution : Q) : M G (Np.ndarray * dict) :=
  let* df := deref geodataframe in
  let geometries := geometry df in
  let* values :=
    match value_column with
    | Some c =>
        match getitem df c with
        | Some vs => ret (Some vs)
        | None => raise (Py.KeyError [Py.Val (Py.PStr c)])
        end
    | None => ret None
    end in
  let geometry_value_pairs :=
    match values with
    | None => map Bare geometries
    | Some vs => zip_with Valued geometries vs
    end in
  let frame :=
    match base_raster_profile with
    | None => _transform_from_geometries df resolution
    | Some profile => Some (p_width profile, p_height profile, p_transform profile)
    end in
  match frame with
  | None => raise (Py.ValueError [Py.Lit "cannot convert float NaN to integer"])
  | Some (width, height, out_transform) =>
      let out_shape := (Py.round height, Py.round width) in
      log (EvRasterize out_shape) ;;
      let* out_raster_array :=
        lift (features_rasterize geometry_value_pairs fill_value default_value
                                 out_transform out_shape) in
      ret (out_raster_array,
           ({[ "transform" := MTransform out_transform;
               "height" := MNum height;
               "width" := MNum width ]} : dict))
  end.

Definition rasterize_vector (geodataframe : nat) (resolution : Q)
    (value_column : option string) (default_value fill_value : Q)
    (base_raster_profile : option Profile) (buffer_value : option Q)
  : M G (Np.ndarray * dict) :=
  let* df := deref geodataframe in
  if (df_len df =? 0)%nat then
    raise (Py.EmptyDataFrameException [Py.Lit "Expected geodataframe to contain geometries."])
  else if negb (Qltb 0 resolution) then
    raise (Py.ValueError [Py.Lit "Expected a positive value resolution (";
                          Py.Val (Py.PKw "resolution" resolution); Py.Lit ")"])
  else if match value_column with
          | Some c => negb (Py.py_in c (df_columns df))
          | None => false
          end then
    raise (Py.ValueError [Py.Lit "Expected value_column (";
                          Py.Val (Py.PStr (default "" value_column));
                          Py.Lit ") to be contained in geodataframe columns."])
  else if match buffer_value with
          | Some b => Qltb b 0
          | None => false
          end then
    raise (Py.ValueError [Py.Lit "Expected a positive buffer_value (";
                          Py.Val (Py.PKw "buffer_value" (default 0 buffer_value));
                          Py.Lit ")"])
  else
    match buffer_value with
    | Some b =>
        let* buffered := apply_buffer (geometry df) b in
        setitem_geometry geodataframe buffered
    | None => ret tt
    end ;;
    _rasterize_vector geodataframe value_column default_value fill_value
                      base_raster_profile resolution.

(** ** kriging_interpolation.py *)

(** [data.empty]: some axis of the frame has length zero. *)
Definition df_empty (df : GeoDataFrame G) : bool :=
  (df_len df =? 0)%nat || (length (df_columns df) =? 0)%nat.

(** The constructors convert the samples to float arrays, then fit. *)
Definition call_OrdinaryKriging (x y : list Q) (z : list (cellval G))
    (variogram : variogram_model) : M G kmodel :=
  log (EvFit ordinary (length z)) ;;
  match as_floats z with
  | None => raise (Py.TypeError [Py.Lit "float() argument must be a string or a real number"])
  | Some zf => lift (OrdinaryKriging x y zf variogram)
  end.

Definition call_UniversalKriging (x y : list Q) (z : list (cellval G))
    (variogram : variogram_model) (drift_terms : list string) : M G kmodel :=
  log (EvFit universal (length z)) ;;
  match as_floats z with
  | None => raise (Py.TypeError [Py.Lit "float() argument must be a string or a real number"])
  | Some zf => lift (UniversalKriging x y zf variogram drift_terms)
  end.

Definition call_execute (model : kmodel) (grid_x grid_y : list Q)
  : M G (Np.masked_array * Np.ndarray) :=
  log (EvExecute grid_x grid_y) ;;
  lift (execute_grid model grid_x grid_y).

Definition _kriging (data : nat) (target_column : string) (resolution : Z * Z)
    (extent : Q * Q * Q * Q) (variogram : variogram_model) (method_ : method)
    (drift_terms : list string) : M G (Np.ndarray * dict) :=
  let* df := deref data in
  let '(extent0, extent1, extent2, extent3) := extent in
  let* coordinates :=
    mapM (fun geom =>
            match point_xy geom with
            | Some xy => ret xy
            | None => raise (Py.AttributeError [Py.Lit "object has no attribute 'x'"])
            end) (geometry df) in
  match coordinates with
  | [] => raise (Py.IndexError [Py.Lit "too many indices for array"])
  | _ =>
      let x := map fst coordinates in
      let y := map snd coordinates in
      let* z :=
        match getitem df target_column with
        | Some vs => ret vs
        | None => raise (Py.KeyError [Py.Val (Py.PStr target_column)])
        end in
      let* grid_x := lift (Np.linspace extent0 extent1 (fst resolution)) in
      let* grid_y := lift (Np.linspace extent2 extent3 (snd resolution)) in
      let* z_interpolated :=
        match method_ with
        | universal =>
            let* universal_kriging := call_UniversalKriging x y z variogram drift_terms in
            let* zs := call_execute universal_kriging grid_x grid_y in
            ret (fst zs)
        | ordinary =>
            let* ordinary_kriging := call_OrdinaryKriging x y z variogram in
            let* zs := call_execute ordinary_kriging grid_x grid_y in
            ret (fst zs)
        end in
      let z_interpolated := Np.getdata z_interpolated in
      let out_meta : dict :=
        {[ "crs" := MCrs (crs df);
           "width" := MInt (Z.of_nat (length grid_x));
           "height" := MInt (Z.of_nat (length grid_y)) ]} in
      ret (z_interpolated, out_meta)
  end.

Definition recognised_drift_terms : list string :=
  ["regional_linear"; "point_log"; "external_Z"; "specified"; "functional"].

Definition kriging (data : nat) (target_column : string) (resolution : Z * Z)
    (extent : Q * Q * Q * Q) (variogram : variogram_model) (method_ : method)
    (drift_terms : list string) : M G (Np.ndarray * dict) :=
  let* df := deref data in
  if df_empty df then
    raise (Py.EmptyDataFrameException [Py.Lit "The input GeoDataFrame is empty."])
  else if negb (Py.py_in target_column (df_columns df)) then
    raise (Py.InvalidParameterValueException
             [Py.Lit "Expected target_column ("; Py.Val (Py.PStr target_column);
              Py.Lit ") to be contained in geodataframe columns."])
  else if ((fst resolution <=? 0) || (snd resolution <=? 0))%Z then
    raise (Py.InvalidParameterValueException
             [Py.Lit "The resolution must be greater than zero."])
  else if existsb (fun term => negb (Py.py_in term recognised_drift_terms)) drift_terms then
    raise (Py.InvalidParameterValueException
             [Py.Lit "Accepted drift terms are 'regional_linear', 'point_log', 'external_Z', 'specified' and 'functional'."])
  else
    _kriging data target_column resolution extent variogram method_ drift_terms.

End Toolkit.

(** ** checks/dataframe.py and checks/crs.py

    The frames are the GeoDataFrames of the rest of the development. *)

Section Checks.
Context {G : Type}.

(** [all(column in df.columns for column in columns)] *)
Definition check_columns_valid (df : GeoDataFrame G) (columns : list string) : bool :=
  forallb (fun column => Py.py_in column (df_columns df)) columns.

(** [df.empty] *)
Definition check_empty_dataframe (df : GeoDataFrame G) : bool := df_empty df.

(** [len(df.columns) <= idx < -len(df.columns)] *)
Definition check_column_index_in_dataframe (df : GeoDataFrame G) (idx : Z) : bool :=
  (Z.of_nat (length (df_columns df)) <=? idx)%Z &&
  (idx <? - Z.of_nat (length (df_columns df)))%Z.

(** [df.values], flattened: the entries of every column. *)
Definition df_values (df : GeoDataFrame G) : list (cellval G) :=
  concat (map (fun col => map CNum (snd col)) (attrs df)) ++ map CGeom (geometry df).

(** [0 in df.values]: some entry compares equal to 0; a geometry never does. *)
Definition check_dataframe_contains_nonzero_numbers (df : GeoDataFrame G) : bool :=
  existsb (fun v => match v with
                    | CNum q => Qeq_bool q 0
                    | CGeom _ => false
                    end) (df_values df).

End Checks.

(** A coordinate reference system, as far as [check_matching_crs] reads it:
    [crs.to_epsg()] is an EPSG code or [None]. *)
Record Crs := { to_epsg : option Z }.

(** The loop of [check_matching_crs] over the [crs] attribute of each
    object ([None] for a missing or empty crs): the EPSG codes collected, or
    [None] when the loop returns early. *)
Fixpoint epsg_codes (objects : list (option Crs)) : option (list (option Z)) :=
  match objects with
  | [] => Some []
  | None :: _ => None
  | Some c :: rest => option_map (cons (to_epsg c)) (epsg_codes rest)
  end.

Definition check_matching_crs (objects : list (option Crs)) : bool :=
  match epsg_codes objects with
  | None => false
  | Some epsg_list =>
      if negb (size (list_to_set epsg_list : gset (option Z)) =? 1)%nat then false
      else true
  end.

(** ** The error taxonomy of the design

    [EmptyDataFrameException] is the EmptyInput kind; the rasteriser's
    [ValueError] and the interpolator's [InvalidParameterValueException]
    are the InvalidParameter kind; a solver failure is NumericDivergence. *)

Inductive error_kind := EmptyInput | InvalidParameter | NumericDivergence | OtherFailure.

Definition kind_of (e : Py.exn) : error_kind :=
  match e with
  | Py.EmptyDataFrameException _ => EmptyInput
  | Py.InvalidParameterValueException _ | Py.ValueError _ => InvalidParameter
  | Py.LinAlgError _ => NumericDivergence
  | _ => OtherFailure
  end.

(** ** A concrete planar instance, for worked examples

    Geometries are points and axis-parallel rectangles dilated by a
    distance (distance 0 is the rectangle itself), which is closed under
    buffering.  A polygon's footprint is the set of cells whose centre it
    contains; a point's footprint is the cell that contains it. *)

Module Planar.

Inductive geom :=
| Point (x y : Q)
| Rounded (x0 y0 x1 y1 distance : Q).

Definition Box (x0 y0 x1 y1 : Q) : geom := Rounded x0 y0 x1 y1 0.

Definition geom_bounds (g : geom) : Q * Q * Q * Q :=
  match g with
  | Point x y => (x, y, x, y)
  | Rounded x0 y0 x1 y1 dist => (x0 - dist, y0 - dist, x1 + dist, y1 + dist)
  end.

Definition geom_buffer (g : geom) (distance : Q) : geom :=
  match g with
  | Point x y => Rounded x y x y distance
  | Rounded x0 y0 x1 y1 dist => Rounded x0 y0 x1 y1 (dist + distance)
  end.

Definition geom_point_xy (g : geom) : option (Q * Q) :=
  match g with
  | Point x y => Some (x, y)
  | Rounded _ _ _ _ _ => None
  end.

(** Distance from [p] to the interval [[lo, hi]]. *)
Definition gap (lo hi p : Q) : Q := Qmax 0 (Qmax (lo - p) (p - hi)).

Definition geom_covers (g : geom) (tr : Affine.t) (row col : nat) : bool :=
  let '(px, py) := Affine.cell_centre tr row col in
  match g with
  | Point x y =>
      Qleb (Qabs (x - px) * 2) (Qabs (Affine.a tr)) &&
      Qleb (Qabs (y - py) * 2) (Qabs (Affine.e tr))
  | Rounded x0 y0 x1 y1 dist =>
      let dx := gap x0 x1 px in
      let dy := gap y0 y1 py in
      Qleb (dx * dx + dy * dy) (dist * dist)
  end.

#[global] Instance planar_shapely : Shapely geom :=
  {| bounds := geom_bounds; buffer := geom_buffer; point_xy := geom_point_xy |}.

#[global] Instance planar_rasterio : Rasterio geom :=
  {| covers := geom_covers; refuses_no_shapes := true |}.

(** A stand-in solver with pykrige's interface: it keeps the samples and
    estimates every grid node by the value of the nearest sample. *)
Definition sqdist (x y u v : Q) : Q := (x - u) * (x - u) + (y - v) * (y - v).

Fixpoint nearest (samples : list (Q * Q * Q)) (u v : Q) (best : Q * Q) : Q :=
  match samples with
  | [] => snd best
  | (x, y, z) :: rest =>
      let dd := sqdist x y u v in
      if Qltb dd (fst best) then nearest rest u v (dd, z) else nearest rest u v best
  end.

Definition toy_fit (x y z : list Q) : result (list (Q * Q * Q)) :=
  if (length x =? length z)%nat && (length y =? length z)%nat then
    match z with
    | [] => Raise (Py.LinAlgError [Py.Lit "Singular matrix"])
    | _ => Ok (zip (zip x y) z)
    end
  else Raise (Py.ValueError [Py.Lit "Inconsistent sample lengths"]).

Definition toy_execute (model : list (Q * Q * Q)) (gx gy : list Q)
  : result (Np.masked_array * Np.ndarray) :=
  match model with
  | [] => Raise (Py.LinAlgError [Py.Lit "Singular matrix"])
  | (x, y, z) :: rest =>
      let est := map (fun v => map (fun u => nearest rest u v (sqdist x y u v, z)) gx) gy in
      Ok (Np.mk_masked est (map (fun _ => map (fun _ => false) gx) gy),
          map (fun _ => map (fun _ => 0) gx) gy)
  end.

#[global] Instance toy_pykrige : PyKrige :=
  {| kmodel := list (Q * Q * Q);
     OrdinaryKriging := fun x y z _ => toy_fit x y z;
     UniversalKriging := fun x y z _ _ => toy_fit x y z;
     execute_grid := toy_execute |}.

(** The initial world: the given frames in the store, nothing logged. *)
Definition world_of (frames : list (GeoDataFrame geom)) : world geom :=
  {| heap := list_to_map (zip (seq 0 (length frames)) frames); trace := [] |}.

(** One square polygon covering (0,0)-(10,10). *)
Definition square_frame : GeoDataFrame geom :=
  {| crs := Some 3067%Z; geometry := [Box 0 0 10 10]; attrs := [] |}.

(** Two overlapping rectangles with a value column. *)
Definition overlap_frame : GeoDataFrame geom :=
  {| crs := Some 3067%Z;
     geometry := [Box 0 0 3 2; Box 1 0 4 2];
     attrs := [("value", [7; 9])] |}.

(** Three sample points forming a triangle, with values 1, 2, 3. *)
Definition triangle_frame : GeoDataFrame geom :=
  {| crs := Some 3067%Z;
     geometry := [Point 0 0; Point 4 0; Point 0 4];
     attrs := [("value", [1; 2; 3])] |}.

Definition empty_frame : GeoDataFrame geom :=
  {| crs := Some 3067%Z; geometry := []; attrs := [("value", [])] |}.

End Planar.

(** Further frames for worked examples. *)
Module Fixtures.
Import Planar.

(** A single sample point. *)
Definition point_frame : GeoDataFrame geom :=
  {| crs := Some 3067%Z; geometry := [Point 2 3]; attrs := [("value", [1])] |}.

(** The two rectangles of [overlap_frame], listed the other way round, with
    one and the same value. *)
Definition equal_value_frame : GeoDataFrame geom :=
  {| crs := Some 3067%Z;
     geometry := [Box 0 0 3 2; Box 1 0 4 2];
     attrs := [("value", [7; 7])] |}.

Definition equal_value_frame_swapped : GeoDataFrame geom :=
  {| crs := Some 3067%Z;
     geometry := [Box 1 0 4 2; Box 0 0 3 2];
     attrs := [("value", [7; 7])] |}.

(** A 4 x 2 grid of unit cells over (0,0)-(4,2). *)
Definition small_profile : Profile :=
  {| p_width := 4; p_height := 2; p_transform := Affine.mk 1 0 0 0 (-1) 2 |}.

End Fixtures.

(** ** Vocabulary of the statements *)

Section Vocabulary.
Context {G : Type} {SG : Shapely G} {RG : Rasterio G} {PK : PyKrige}.

(** The value that the last covering pair of a burn list gives to cell
    (r, c); [None] when no pair covers the cell. *)
Fixpoint last_cover (tr : Affine.t) (r c : nat) (pairs : list (G * Q)) : option Q :=
  match pairs with
  | [] => None
  | gv :: rest =>
      match last_cover tr r c rest with
      | Some v => Some v
      | None => if covers (fst gv) tr r c then Some (snd gv) else None
      end
  end.

(** The geometries a rasterize call burns: the frame's own, or their
    buffers when a buffer distance is given. *)
Definition burned_geometries (df : GeoDataFrame G) (buffer_value : option Q) : list G :=
  match buffer_value with
  | Some b => map (fun geom => buffer geom b) (geometry df)
  | None => geometry df
  end.

(** The frame as the rasteriser leaves it in the store. *)
Definition frame_after (df : GeoDataFrame G) (buffer_value : option Q) : GeoDataFrame G :=
  match buffer_value with
  | Some _ => set_geometry df (burned_geometries df buffer_value)
  | None => df
  end.

(** The preconditions of [rasterize_vector], as it tests them. *)
Definition rasterize_valid (df : GeoDataFrame G) (resolution : Q)
    (value_column : option string) (buffer_value : option Q) : Prop :=
  df_len df <> 0%nat /\
  0 < resolution /\
  (forall c, value_column = Some c -> In c (df_columns df)) /\
  (forall b, buffer_value = Some b -> 0 <= b).

(** The world in which the burn-in runs once the preconditions hold. *)
Definition after_buffer (ref : nat) (df : GeoDataFrame G) (buffer_value : option Q)
    (w : world G) : world G :=
  match buffer_value with
  | Some b =>
      {| heap := <[ ref := set_geometry df (map (fun geom => buffer geom b) (geometry df)) ]>
                   (heap w);
         trace := trace w ++ replicate (df_len df) (EvBuffer b) |}
  | None => w
  end.

(** A violated precondition: the exception that is raised. *)
Definition rasterize_check (df : GeoDataFrame G) (resolution : Q) (value_column : option string)
    (buffer_value : option Q) : option Py.exn :=
  if (df_len df =? 0)%nat then
    Some (Py.EmptyDataFrameException [Py.Lit "Expected geodataframe to contain geometries."])
  else if negb (Qltb 0 resolution) then
    Some (Py.ValueError [Py.Lit "Expected a positive value resolution (";
                         Py.Val (Py.PKw "resolution" resolution); Py.Lit ")"])
  else if match value_column with
          | Some c => negb (Py.py_in c (df_columns df))
          | None => false
          end then
    Some (Py.ValueError [Py.Lit "Expected value_column (";
                         Py.Val (Py.PStr (default "" value_column));
                         Py.Lit ") to be contained in geodataframe columns."])
  else if match buffer_value with
          | Some b => Qltb b 0
          | None => false
          end then
    Some (Py.ValueError [Py.Lit "Expected a positive buffer_value (";
                         Py.Val (Py.PKw "buffer_value" (default 0 buffer_value));
                         Py.Lit ")"])
  else None.

(** The shapes handed to the burn-in (lines 89-91 of rasterize.py). *)
Definition rasterize_shapes (df : GeoDataFrame G) (value_column : option string)
  : result (list (shape G)) :=
  match value_column with
  | Some c =>
      match getitem df c with
      | Some vs => Ok (zip_with Valued (geometry df) vs)
      | None => Raise (Py.KeyError [Py.Val (Py.PStr c)])
      end
  | None => Ok (map Bare (geometry df))
  end.

(** The grid frame of a rasterize call (lines 93-100 of rasterize.py):
    derived from the geometries, or taken from the base raster profile. *)
Definition grid_frame (df : GeoDataFrame G) (base_raster_profile : option Profile)
    (resolution : Q) : option (Q * Q * Affine.t) :=
  match base_raster_profile with
  | None => _transform_from_geometries df resolution
  | Some profile => Some (p_width profile, p_height profile, p_transform profile)
  end.

(** The metadata dictionary of the rasteriser. *)
Definition rasterize_meta (width height : Q) (tr : Affine.t) : gmap string meta_val :=
  {[ "transform" := MTransform tr; "height" := MNum height; "width" := MNum width ]}.

(** [geom.x, geom.y] of every sample, if all are points. *)
Fixpoint points_xy (gs : list G) : option (list (Q * Q)) :=
  match gs with
  | [] => Some []
  | g :: rest =>
      match point_xy g, points_xy rest with
      | Some xy, Some xys => Some (xy :: xys)
      | _, _ => None
      end
  end.

(** The metadata dictionary of the interpolator. *)
Definition kriging_meta (df : GeoDataFrame G) (grid_x grid_y : list Q) : gmap string meta_val :=
  {[ "crs" := MCrs (crs df);
     "width" := MInt (Z.of_nat (length grid_x));
     "height" := MInt (Z.of_nat (length grid_y)) ]}.

(** The preconditions of [kriging], as it tests them. *)
Definition kriging_valid (df : GeoDataFrame G) (target_column : string)
    (resolution : Z * Z) (drift_terms : list string) : Prop :=
  df_empty df = false /\
  In target_column (df_columns df) /\
  (0 < fst resolution)%Z /\ (0 < snd resolution)%Z /\
  (forall term, In term drift_terms -> In term recognised_drift_terms).

(** The exception [kriging] raises at its first failed check. *)
Definition kriging_check (df : GeoDataFrame G) (target_column : string)
    (resolution : Z * Z) (drift_terms : list string) : option Py.exn :=
  if df_empty df then
    Some (Py.EmptyDataFrameException [Py.Lit "The input GeoDataFrame is empty."])
  else if negb (Py.py_in target_column (df_columns df)) then
    Some (Py.InvalidParameterValueException
            [Py.Lit "Expected target_column ("; Py.Val (Py.PStr target_column);
             Py.Lit ") to be contained in geodataframe columns."])
  else if ((fst resolution <=? 0) || (snd resolution <=? 0))%Z then
    Some (Py.InvalidParameterValueException
            [Py.Lit "The resolution must be greater than zero."])
  else if existsb (fun term => negb (Py.py_in term recognised_drift_terms)) drift_terms then
    Some (Py.InvalidParameterValueException
            [Py.Lit "Accepted drift terms are 'regional_linear', 'point_log', 'external_Z', 'specified' and 'functional'."])
  else None.

(** The pykrige constructor that the method selects. *)
Definition fit_model (m : method) (x y zf : list Q) (variogram : variogram_model)
    (drift_terms : list string) : result kmodel :=
  match m with
  | universal => UniversalKriging x y zf variogram drift_terms
  | ordinary => OrdinaryKriging x y zf variogram
  end.

(** [p] names a parameter of a rasterize call that violates its
    precondition. *)
Definition rasterize_offending (df : GeoDataFrame G) (resolution : Q)
    (value_column : option string) (buffer_value : option Q) (p : string) : Prop :=
  (p = "geodataframe" /\ df_len df = 0%nat) \/
  (p = "resolution" /\ ~ 0 < resolution) \/
  (p = "value_column" /\ exists c, value_column = Some c /\ ~ In c (df_columns df)) \/
  (p = "buffer_value" /\ exists b, buffer_value = Some b /\ b < 0).

(** [p] names an input of a kriging call that violates its precondition
    (the empty frame is reported as "GeoDataFrame"). *)
Definition kriging_offending (df : GeoDataFrame G) (target_column : string)
    (resolution : Z * Z) (p : string) : Prop :=
  (p = "GeoDataFrame" /\ df_len df = 0%nat) \/
  (p = "target_column" /\ ~ In target_column (df_columns df)) \/
  (p = "resolution" /\ ((fst resolution <= 0)%Z \/ (snd resolution <= 0)%Z)).

(** The error kind a precondition failure must have: EmptyInput for an
    empty input set, InvalidParameter otherwise. *)
Definition expected_kind (df : GeoDataFrame G) : error_kind :=
  if (df_len df =? 0)%nat then EmptyInput else InvalidParameter.

(** The value burned for each geometry: the default value, or the entry of
    the (numeric) value column. *)
Definition burn_values (df : GeoDataFrame G) (value_column : option string)
    (default_value : Q) : option (list Q) :=
  match value_column with
  | None => Some (replicate (df_len df) default_value)
  | Some c => if String.eqb c "geometry" then None else assoc c (attrs df)
  end.

(** [(min_x, min_y, max_x, max_y)] is the bounding extent of the geometries:
    it contains the bounds of each, and each of its sides is the side of
    some geometry's bounds. *)
Definition is_extent (gs : list G) (extent : Q * Q * Q * Q) : Prop :=
  let '(min_x, min_y, max_x, max_y) := extent in
  (forall g x0 y0 x1 y1, In g gs -> bounds g = (x0, y0, x1, y1) ->
     min_x <= x0 /\ min_y <= y0 /\ x1 <= max_x /\ y1 <= max_y) /\
  (exists g, In g gs /\ fst (fst (fst (bounds g))) = min_x) /\
  (exists g, In g gs /\ snd (fst (fst (bounds g))) = min_y) /\
  (exists g, In g gs /\ snd (fst (bounds g)) = max_x) /\
  (exists g, In g gs /\ snd (bounds g) = max_y).

(** On the grid of [tr], geometries of [pairs] that cover a common cell
    carry the same value (in particular when no two of them overlap). *)
Definition overlaps_agree (tr : Affine.t) (pairs : list (G * Q)) : Prop :=
  forall g v g' v' r c,
    In (g, v) pairs -> In (g', v') pairs ->
    covers g tr r c = true -> covers g' tr r c = true -> v = v'.

(** A number that is no integer. *)
Definition non_integral (q : Q) : Prop := forall z : Z, ~ q == inject_Z z.

End Vocabulary.

(** * Properties *)

(** ** Arithmetic and comparison helpers *)

Lemma Qltb_lt (x y : Q) : Qltb x y = true <-> x < y.
Proof.
  unfold Qltb. rewrite Qlt_alt. destruct (Qcompare x y); split; congruence.
Qed.

Lemma Qltb_ge (x y : Q) : Qltb x y = false <-> y <= x.
Proof.
  unfold Qltb. rewrite Qle_alt. rewrite <- (Qcompare_antisym x y).
  destruct (Qcompare x y); simpl; split; congruence.
Qed.

Lemma py_in_In (x : string) (xs : list string) : Py.py_in x xs = true <-> In x xs.
Proof.
  unfold Py.py_in. rewrite existsb_exists. split.
  - intros (y & Hy & Heq). apply String.eqb_eq in Heq. now subst.
  - intros Hin. exists x. split; [assumption | apply String.eqb_refl].
Qed.

Lemma py_in_not_In (x : string) (xs : list string) : Py.py_in x xs = false <-> ~ In x xs.
Proof.
  rewrite <- py_in_In. destruct (Py.py_in x xs); split; congruence.
Qed.

(** ** The burn loop of rasterio *)

Section BurnFacts.
Context {G : Type} {RG : Rasterio G}.
Implicit Types (tr : Affine.t) (out : Np.ndarray) (pairs : list (G * Q)).

Lemma burn_cell tr out gv r c :
  Np.cell (burn tr out gv) r c =
  (fun old => if covers (fst gv) tr r c then snd gv else old) <$> Np.cell out r c.
Proof.
  unfold Np.cell, burn. rewrite list_lookup_imap.
  destruct (out !! r) as [row|]; simpl; [|reflexivity].
  now rewrite list_lookup_imap.
Qed.

Lemma fold_burn_cell tr pairs : forall out r c,
  Np.cell (fold_left (burn tr) pairs out) r c =
  (fun old => default old (last_cover tr r c pairs)) <$> Np.cell out r c.
Proof.
  induction pairs as [|gv rest IH]; intros out r c; simpl.
  - now destruct (Np.cell out r c).
  - rewrite IH, burn_cell.
    destruct (Np.cell out r c) as [old|]; simpl; [|reflexivity].
    destruct (last_cover tr r c rest); simpl; [reflexivity|].
    now destruct (covers (fst gv) tr r c).
Qed.

Lemma burn_nrows tr out gv : Np.nrows (burn tr out gv) = Np.nrows out.
Proof. unfold Np.nrows, burn. apply length_imap. Qed.

Lemma burn_has_width tr out gv w : Np.has_width w out -> Np.has_width w (burn tr out gv).
Proof.
  unfold Np.has_width, burn. rewrite !Forall_lookup. intros Hw i row.
  rewrite list_lookup_imap. destruct (out !! i) as [row0|] eqn:Hrow; simpl; [|discriminate].
  intros [= <-]. rewrite length_imap. eauto.
Qed.

Lemma fold_burn_shape tr pairs : forall out w,
  Np.has_width w out ->
  Np.nrows (fold_left (burn tr) pairs out) = Np.nrows out /\
  Np.has_width w (fold_left (burn tr) pairs out).
Proof.
  induction pairs as [|gv rest IH]; intros out w Hw; simpl; [easy|].
  destruct (IH (burn tr out gv) w (burn_has_width _ _ _ _ Hw)) as [Hn Hw'].
  rewrite Hn, burn_nrows. easy.
Qed.

Lemma full_shape h w fill : Np.nrows (Np.full h w fill) = h /\ Np.has_width w (Np.full h w fill).
Proof.
  unfold Np.nrows, Np.has_width, Np.full. rewrite length_replicate. split; [reflexivity|].
  apply Forall_forall. intros row Hrow. apply elem_of_replicate in Hrow as [-> _].
  apply length_replicate.
Qed.

Lemma full_cell h w fill r c :
  (r < h)%nat -> (c < w)%nat -> Np.cell (Np.full h w fill) r c = Some fill.
Proof.
  intros Hr Hc. unfold Np.cell, Np.full.
  rewrite lookup_replicate_2 by assumption. simpl. now apply lookup_replicate_2.
Qed.

Lemma has_width_cells w out : Np.has_width w out -> Np.cells out = (Np.nrows out * w)%nat.
Proof.
  unfold Np.has_width, Np.cells, Np.nrows. induction 1 as [|row rest Hrow _ IH]; simpl.
  - reflexivity.
  - rewrite length_app, IH, Hrow. reflexivity.
Qed.

Lemma last_cover_None tr r c pairs :
  last_cover tr r c pairs = None <->
  (forall g v, In (g, v) pairs -> covers g tr r c = false).
Proof.
  induction pairs as [|[g0 v0] rest IH]; simpl.
  - split; [intros _ g v [] | reflexivity].
  - destruct (last_cover tr r c rest) as [v1|] eqn:Hl.
    + split; [discriminate|]. intros Hall.
      apply IH. intros g v Hin. apply (Hall g v). now right.
    + destruct (covers g0 tr r c) eqn:Hc.
      * split; [discriminate|]. intros Hall. rewrite (Hall g0 v0) in Hc; [discriminate|now left].
      * split; [|reflexivity]. intros _ g v [[= <- <-]|Hin]; [exact Hc|].
        apply (proj1 IH eq_refl g v Hin).
Qed.

(** The last pair that covers a cell decides it. *)
Lemma last_cover_lookup tr r c pairs : forall i g v,
  pairs !! i = Some (g, v) ->
  covers g tr r c = true ->
  (forall j g' v', (i < j)%nat -> pairs !! j = Some (g', v') -> covers g' tr r c = false) ->
  last_cover tr r c pairs = Some v.
Proof.
  induction pairs as [|gv rest IH]; intros i g v Hi Hcov Hlater; [discriminate|].
  simpl. destruct i as [|i]; simpl in Hi.
  - injection Hi as ->. simpl. rewrite Hcov.
    assert (Hnone : last_cover tr r c rest = None).
    { apply last_cover_None. intros g' v' Hin.
      apply list_elem_of_In, list_elem_of_lookup in Hin as [j Hj].
      apply (Hlater (S j) g' v'); [lia | exact Hj]. }
    now rewrite Hnone.
  - rewrite (IH i g v Hi Hcov); [reflexivity|].
    intros j g' v' Hj Hl. apply (Hlater (S j) g' v'); [lia | exact Hl].
Qed.

Lemma last_cover_Some tr r c pairs v :
  last_cover tr r c pairs = Some v ->
  exists g, In (g, v) pairs /\ covers g tr r c = true.
Proof.
  induction pairs as [|[g0 v0] rest IH]; simpl; [discriminate|].
  destruct (last_cover tr r c rest) as [v1|].
  - intros [= ->]. destruct (IH eq_refl) as (g & Hin & Hc). exists g. split; [now right|exact Hc].
  - destruct (covers g0 tr r c) eqn:Hc; [|discriminate].
    intros [= ->]. exists g0. split; [now left|exact Hc].
Qed.

Lemma shape_pairs_bare (d : Q) (gs : list G) :
  shape_pairs d (map Bare gs) = Some (map (fun g => (g, d)) gs).
Proof. induction gs as [|g gs IH]; simpl; [reflexivity|]. now rewrite IH. Qed.

Lemma shape_pairs_valued (d : Q) (gs : list G) : forall vs : list Q,
  shape_pairs d (zip_with Valued gs (map CNum vs)) = Some (zip gs vs).
Proof.
  induction gs as [|g gs IH]; intros [|v vs]; simpl; try reflexivity. now rewrite IH.
Qed.

End BurnFacts.

(** ** Running the monad *)

Section Runs.
Context {G : Type} {SG : Shapely G} {RG : Rasterio G} {PK : PyKrige}.
Implicit Types (w : world G) (df : GeoDataFrame G).

Lemma world_eta w : {| heap := heap w; trace := trace w |} = w.
Proof. now destruct w. Qed.

(** Buffering logs one call per geometry and touches nothing else. *)
Lemma apply_buffer_run (gs : list G) (b : Q) : forall w,
  apply_buffer gs b w =
  (Ok (map (fun geom => buffer geom b) gs),
   {| heap := heap w; trace := trace w ++ replicate (length gs) (EvBuffer b) |}).
Proof.
  unfold apply_buffer.
  induction gs as [|g gs IH]; intros w; simpl.
  - unfold ret. now rewrite app_nil_r, world_eta.
  - unfold bind at 1. unfold bind at 1. unfold log, ret at 1.
    unfold bind at 1. rewrite IH. simpl. unfold ret.
    now rewrite <- app_assoc.
Qed.

Lemma rasterize_vector_run w ref df resolution value_column default_value fill_value
    base buffer_value :
  heap w !! ref = Some df ->
  rasterize_valid df resolution value_column buffer_value ->
  rasterize_vector ref resolution value_column default_value fill_value base buffer_value w =
  _rasterize_vector ref value_column default_value fill_value base resolution
                    (after_buffer ref df buffer_value w).
Proof.
  intros Hheap (Hlen & Hres & Hcol & Hbuf).
  unfold rasterize_vector. unfold bind at 1. unfold deref at 1. rewrite Hheap.
  apply Nat.eqb_neq in Hlen. rewrite Hlen.
  apply Qltb_lt in Hres. rewrite Hres. simpl negb. cbv iota.
  assert (Hc : match value_column with
               | Some c => negb (Py.py_in c (df_columns df))
               | None => false
               end = false).
  { destruct value_column as [c|]; [|reflexivity].
    apply negb_false_iff, py_in_In. now apply Hcol. }
  rewrite Hc.
  assert (Hb : match buffer_value with Some b => Qltb b 0 | None => false end = false).
  { destruct buffer_value as [b|]; [|reflexivity]. apply Qltb_ge. now apply Hbuf. }
  rewrite Hb.
  destruct buffer_value as [b|]; simpl.
  - unfold bind at 1. unfold bind at 1. rewrite apply_buffer_run.
    unfold setitem_geometry. simpl. rewrite Hheap. reflexivity.
  - unfold bind at 1. reflexivity.
Qed.

Lemma rasterize_vector_raise w ref df resolution value_column default_value fill_value
    base buffer_value e :
  heap w !! ref = Some df ->
  rasterize_check df resolution value_column buffer_value = Some e ->
  rasterize_vector ref resolution value_column default_value fill_value base buffer_value w =
  (Raise e, w).
Proof.
  intros Hheap. unfold rasterize_check, rasterize_vector.
  unfold bind at 1. unfold deref at 1. rewrite Hheap.
  repeat match goal with
         | |- context [if ?b then _ else _] => destruct b
         end; intros [= <-] || discriminate; reflexivity.
Qed.

Lemma rasterize_check_valid df resolution value_column buffer_value :
  rasterize_check df resolution value_column buffer_value = None <->
  rasterize_valid df resolution value_column buffer_value.
Proof.
  unfold rasterize_check, rasterize_valid. split.
  - destruct (df_len df =? 0)%nat eqn:Hlen; [discriminate|].
    destruct (Qltb 0 resolution) eqn:Hres; [|discriminate]. simpl.
    destruct value_column as [c|].
    + destruct (Py.py_in c (df_columns df)) eqn:Hin; [|discriminate]. simpl.
      destruct buffer_value as [b|].
      * destruct (Qltb b 0) eqn:Hb; [discriminate|]. intros _.
        repeat split.
        -- now apply Nat.eqb_neq.
        -- now apply Qltb_lt.
        -- intros c' [= <-]. now apply py_in_In.
        -- intros b' [= <-]. now apply Qltb_ge.
      * intros _. repeat split.
        -- now apply Nat.eqb_neq.
        -- now apply Qltb_lt.
        -- intros c' [= <-]. now apply py_in_In.
        -- discriminate.
    + destruct buffer_value as [b|].
      * destruct (Qltb b 0) eqn:Hb; [discriminate|]. intros _.
        repeat split.
        -- now apply Nat.eqb_neq.
        -- now apply Qltb_lt.
        -- discriminate.
        -- intros b' [= <-]. now apply Qltb_ge.
      * intros _. repeat split.
        -- now apply Nat.eqb_neq.
        -- now apply Qltb_lt.
        -- discriminate.
        -- discriminate.
  - intros (Hlen & Hres & Hcol & Hbuf).
    apply Nat.eqb_neq in Hlen. rewrite Hlen.
    apply Qltb_lt in Hres. rewrite Hres. simpl.
    destruct value_column as [c|].
    + specialize (Hcol c eq_refl). apply py_in_In in Hcol. rewrite Hcol. simpl.
      destruct buffer_value as [b|]; [|reflexivity].
      specialize (Hbuf b eq_refl). apply Qltb_ge in Hbuf. now rewrite Hbuf.
    + destruct buffer_value as [b|]; [|reflexivity].
      specialize (Hbuf b eq_refl). apply Qltb_ge in Hbuf. now rewrite Hbuf.
Qed.

Lemma _rasterize_vector_run w ref df value_column default_value fill_value base resolution :
  heap w !! ref = Some df ->
  _rasterize_vector ref value_column default_value fill_value base resolution w =
  match rasterize_shapes df value_column with
  | Raise e => (Raise e, w)
  | Ok shapes =>
      match grid_frame df base resolution with
      | None => (Raise (Py.ValueError [Py.Lit "cannot convert float NaN to integer"]), w)
      | Some (width, height, tr) =>
          let out_shape := (Py.round height, Py.round width) in
          (match features_rasterize shapes fill_value default_value tr out_shape with
           | Ok arr => Ok (arr, rasterize_meta width height tr)
           | Raise e => Raise e
           end,
           {| heap := heap w; trace := trace w ++ [EvRasterize out_shape] |})
      end
  end.
Proof.
  intros Hheap. unfold _rasterize_vector, rasterize_shapes, grid_frame.
  unfold bind at 1. unfold deref at 1. rewrite Hheap.
  unfold bind at 1.
  destruct value_column as [c|].
  - destruct (getitem df c) as [vs|]; [|reflexivity]. unfold ret at 1.
    destruct (match base with
              | Some profile => Some (p_width profile, p_height profile, p_transform profile)
              | None => _transform_from_geometries df resolution
              end) as [[[width height] tr]|]; [|reflexivity].
    unfold bind, log, lift, ret. simpl.
    now destruct (features_rasterize _ _ _ _ _).
  - unfold ret at 1.
    destruct (match base with
              | Some profile => Some (p_width profile, p_height profile, p_transform profile)
              | None => _transform_from_geometries df resolution
              end) as [[[width height] tr]|]; [|reflexivity].
    unfold bind, log, lift, ret. simpl.
    now destruct (features_rasterize _ _ _ _ _).
Qed.

(** The burn-in never assigns to the store. *)
Lemma _rasterize_vector_heap w ref value_column default_value fill_value base resolution :
  heap (snd (_rasterize_vector ref value_column default_value fill_value base resolution w)) =
  heap w.
Proof.
  destruct (heap w !! ref) as [df|] eqn:Hheap.
  - rewrite (_rasterize_vector_run _ _ df) by assumption.
    destruct (rasterize_shapes df value_column); [|reflexivity].
    now destruct (grid_frame df base resolution) as [[[width height] tr]|].
  - unfold _rasterize_vector. unfold bind at 1. unfold deref. now rewrite Hheap.
Qed.

(** *** The interpolator *)

Lemma kriging_raise w ref df target_column resolution extent variogram m drift_terms e :
  heap w !! ref = Some df ->
  kriging_check df target_column resolution drift_terms = Some e ->
  kriging ref target_column resolution extent variogram m drift_terms w = (Raise e, w).
Proof.
  intros Hheap. unfold kriging_check, kriging.
  unfold bind at 1. unfold deref at 1. rewrite Hheap.
  repeat match goal with
         | |- context [if ?b then _ else _] => destruct b
         end; intros [= <-] || discriminate; reflexivity.
Qed.

Lemma kriging_check_valid df target_column resolution drift_terms :
  kriging_check df target_column resolution drift_terms = None <->
  kriging_valid df target_column resolution drift_terms.
Proof.
  unfold kriging_check, kriging_valid.
  destruct (df_empty df); [split; [discriminate | intros [[=] _]]|].
  destruct (Py.py_in target_column (df_columns df)) eqn:Hin; cbn [negb].
  2:{ split; [discriminate|]. intros (_ & Hc & _). apply py_in_In in Hc. congruence. }
  apply py_in_In in Hin.
  destruct (fst resolution <=? 0)%Z eqn:H0; cbn [orb].
  { split; [discriminate|]. intros (_ & _ & Hr & _). apply Z.leb_le in H0. lia. }
  destruct (snd resolution <=? 0)%Z eqn:H1; cbn [orb].
  { split; [discriminate|]. intros (_ & _ & _ & Hr & _). apply Z.leb_le in H1. lia. }
  apply Z.leb_gt in H0, H1.
  destruct (existsb _ drift_terms) eqn:Hd.
  - split; [discriminate|]. intros (_ & _ & _ & _ & Hall).
    destruct (proj1 (existsb_exists _ _) Hd) as (term & Hterm & Hbad).
    specialize (Hall term Hterm). apply py_in_In in Hall.
    rewrite Hall in Hbad. discriminate.
  - split; [|reflexivity]. intros _. repeat split; try assumption.
    intros term Hterm. apply py_in_In.
    destruct (Py.py_in term recognised_drift_terms) eqn:Hrec; [reflexivity|].
    assert (Hex : existsb (fun term => negb (Py.py_in term recognised_drift_terms))
                          drift_terms = true).
    { apply existsb_exists. exists term. split; [assumption|]. now rewrite Hrec. }
    congruence.
Qed.

Lemma kriging_run w ref df target_column resolution extent variogram m drift_terms :
  heap w !! ref = Some df ->
  kriging_valid df target_column resolution drift_terms ->
  kriging ref target_column resolution extent variogram m drift_terms w =
  _kriging ref target_column resolution extent variogram m drift_terms w.
Proof.
  intros Hheap Hvalid. apply kriging_check_valid in Hvalid.
  unfold kriging_check in Hvalid. unfold kriging.
  unfold bind at 1. unfold deref at 1. rewrite Hheap.
  repeat match goal with
         | |- context [if ?b then _ else _] => destruct b; try discriminate
         end.
  reflexivity.
Qed.

Lemma mapM_points_run (gs : list G) : forall w,
  mapM (fun geom =>
          match point_xy geom with
          | Some xy => ret xy
          | None => raise (Py.AttributeError [Py.Lit "object has no attribute 'x'"])
          end) gs w =
  match points_xy gs with
  | Some cs => (Ok cs, w)
  | None => (Raise (Py.AttributeError [Py.Lit "object has no attribute 'x'"]), w)
  end.
Proof.
  induction gs as [|g gs IH]; intros w; simpl; [reflexivity|].
  unfold bind at 1. destruct (point_xy g) as [xy|]; [|reflexivity].
  unfold ret at 1. unfold bind at 1. rewrite IH.
  now destruct (points_xy gs).
Qed.

Lemma _kriging_run w ref df target_column resolution e0 e1 e2 e3 variogram m drift_terms :
  heap w !! ref = Some df ->
  _kriging ref target_column resolution (e0, e1, e2, e3) variogram m drift_terms w =
  match points_xy (geometry df) with
  | None => (Raise (Py.AttributeError [Py.Lit "object has no attribute 'x'"]), w)
  | Some [] => (Raise (Py.IndexError [Py.Lit "too many indices for array"]), w)
  | Some coordinates =>
      match getitem df target_column with
      | None => (Raise (Py.KeyError [Py.Val (Py.PStr target_column)]), w)
      | Some z =>
          match Np.linspace e0 e1 (fst resolution) with
          | Raise e => (Raise e, w)
          | Ok grid_x =>
              match Np.linspace e2 e3 (snd resolution) with
              | Raise e => (Raise e, w)
              | Ok grid_y =>
                  let w1 := {| heap := heap w; trace := trace w ++ [EvFit m (length z)] |} in
                  match as_floats z with
                  | None =>
                      (Raise (Py.TypeError
                                [Py.Lit "float() argument must be a string or a real number"]),
                       w1)
                  | Some zf =>
                      match fit_model m (map fst coordinates) (map snd coordinates) zf
                                      variogram drift_terms with
                      | Raise e => (Raise e, w1)
                      | Ok model =>
                          let w2 := {| heap := heap w;
                                       trace := trace w ++ [EvFit m (length z);
                                                            EvExecute grid_x grid_y] |} in
                          match execute_grid model grid_x grid_y with
                          | Raise e => (Raise e, w2)
                          | Ok (zi, _) =>
                              (Ok (Np.getdata zi, kriging_meta df grid_x grid_y), w2)
                          end
                      end
                  end
              end
          end
      end
  end.
Proof.
  intros Hheap. unfold _kriging.
  unfold bind at 1. unfold deref at 1. rewrite Hheap.
  unfold bind at 1. rewrite mapM_points_run.
  destruct (points_xy (geometry df)) as [[|xy cs]|]; [reflexivity| |reflexivity].
  unfold bind at 1.
  destruct (getitem df target_column) as [z|]; [|reflexivity]. unfold ret at 1.
  unfold bind at 1. unfold lift at 1.
  destruct (Np.linspace e0 e1 (fst resolution)) as [gx|]; [|reflexivity].
  unfold bind at 1. unfold lift at 1.
  destruct (Np.linspace e2 e3 (snd resolution)) as [gy|]; [|reflexivity].
  unfold kriging_meta.
  destruct m; unfold call_OrdinaryKriging, call_UniversalKriging, call_execute, fit_model;
    unfold bind, log, lift, ret, raise; simpl;
    (destruct (as_floats z) as [zf|]; [|reflexivity]).
  - destruct (OrdinaryKriging _ _ zf variogram) as [model|]; [|reflexivity]. simpl.
    rewrite <- app_assoc. simpl.
    now destruct (execute_grid model gx gy) as [[zi ss]|].
  - destruct (UniversalKriging _ _ zf variogram drift_terms) as [model|]; [|reflexivity]. simpl.
    rewrite <- app_assoc. simpl.
    now destruct (execute_grid model gx gy) as [[zi ss]|].
Qed.

End Runs.

(** ** Precondition failures *)

Section Preconditions.
Context {G : Type} {SG : Shapely G} {RG : Rasterio G} {PK : PyKrige}.
Implicit Types (w : world G) (df : GeoDataFrame G).

Lemma df_empty_len df : df_empty df = (df_len df =? 0)%nat.
Proof.
  unfold df_empty, df_columns. rewrite length_app. simpl.
  rewrite Nat.add_1_r. simpl. apply orb_false_r.
Qed.

Lemma rasterize_check_Some df resolution value_column buffer_value e :
  rasterize_check df resolution value_column buffer_value = Some e ->
  kind_of e = expected_kind df /\
  exists p, rasterize_offending df resolution value_column buffer_value p /\
            Py.mentions p (Py.exn_message e) = true.
Proof.
  unfold rasterize_check, expected_kind, rasterize_offending.
  destruct (df_len df =? 0)%nat eqn:Hlen.
  { intros [= <-]. split; [reflexivity|]. exists "geodataframe".
    split; [|reflexivity]. left. split; [reflexivity|]. now apply Nat.eqb_eq. }
  destruct (Qltb 0 resolution) eqn:Hres; cbn [negb].
  2:{ intros [= <-]. split; [reflexivity|]. exists "resolution".
      split; [|reflexivity]. right; left. split; [reflexivity|].
      apply Qltb_ge in Hres. now apply Qle_not_lt. }
  destruct value_column as [c|].
  - destruct (Py.py_in c (df_columns df)) eqn:Hin; cbn [negb].
    2:{ intros [= <-]. split; [reflexivity|]. exists "value_column".
        split; [|reflexivity]. right; right; left. split; [reflexivity|].
        exists c. split; [reflexivity|]. now apply py_in_not_In. }
    destruct buffer_value as [b|]; [|discriminate].
    destruct (Qltb b 0) eqn:Hb; [|discriminate].
    intros [= <-]. split; [reflexivity|]. exists "buffer_value".
    split; [|reflexivity]. right; right; right. split; [reflexivity|].
    exists b. split; [reflexivity|]. now apply Qltb_lt.
  - destruct buffer_value as [b|]; [|discriminate].
    destruct (Qltb b 0) eqn:Hb; [|discriminate].
    intros [= <-]. split; [reflexivity|]. exists "buffer_value".
    split; [|reflexivity]. right; right; right. split; [reflexivity|].
    exists b. split; [reflexivity|]. now apply Qltb_lt.
Qed.

Lemma rasterize_offending_invalid df resolution value_column buffer_value p :
  rasterize_offending df resolution value_column buffer_value p ->
  ~ rasterize_valid df resolution value_column buffer_value.
Proof.
  intros Hoff (Hlen & Hres & Hcol & Hbuf).
  destruct Hoff as [[_ H]|[[_ H]|[[_ (c & Hc & H)]|[_ (b & Hb & H)]]]].
  - contradiction.
  - contradiction.
  - apply H. now apply Hcol.
  - apply (Qlt_not_le _ _ H). now apply Hbuf.
Qed.

Lemma kriging_check_Some df target_column resolution drift_terms e :
  kriging_check df target_column resolution drift_terms = Some e ->
  (exists p, kriging_offending df target_column resolution p) ->
  kind_of e = expected_kind df /\
  exists p, kriging_offending df target_column resolution p /\
            Py.mentions p (Py.exn_message e) = true.
Proof.
  unfold kriging_check, expected_kind, kriging_offending. rewrite df_empty_len.
  intros Hcheck (p0 & Hoff).
  destruct (df_len df =? 0)%nat eqn:Hlen.
  { injection Hcheck as <-. split; [reflexivity|]. exists "GeoDataFrame".
    split; [|reflexivity]. left. split; [reflexivity|]. now apply Nat.eqb_eq. }
  apply Nat.eqb_neq in Hlen.
  destruct (Py.py_in target_column (df_columns df)) eqn:Hin; cbn [negb] in Hcheck.
  2:{ injection Hcheck as <-. split; [reflexivity|]. exists "target_column".
      split; [|reflexivity]. right; left. split; [reflexivity|]. now apply py_in_not_In. }
  apply py_in_In in Hin.
  destruct ((fst resolution <=? 0) || (snd resolution <=? 0))%Z eqn:Hres.
  { injection Hcheck as <-. split; [reflexivity|]. exists "resolution".
    split; [|reflexivity]. right; right. split; [reflexivity|].
    apply orb_true_iff in Hres as [H|H]; apply Z.leb_le in H; [now left | now right]. }
  exfalso. apply orb_false_iff in Hres as [H0 H1]. apply Z.leb_gt in H0, H1.
  destruct Hoff as [[_ H]|[[_ H]|[_ [H|H]]]]; try contradiction; lia.
Qed.

Lemma kriging_offending_invalid df target_column resolution drift_terms p :
  kriging_offending df target_column resolution p ->
  ~ kriging_valid df target_column resolution drift_terms.
Proof.
  intros Hoff (Hemp & Hcol & H0 & H1 & _). rewrite df_empty_len in Hemp.
  apply Nat.eqb_neq in Hemp.
  destruct Hoff as [[_ H]|[[_ H]|[_ [H|H]]]]; try contradiction; lia.
Qed.

(** C3. Every input that violates a precondition of [rasterize_vector]
    (empty frame, resolution not positive, value column absent, negative
    buffer) or of [kriging] (empty frame, target column absent, a resolution
    component not positive) makes the call raise at once: the world is left
    as it was, so nothing was buffered, burned or fitted and nothing was
    assigned.  The exception is of the EmptyInput kind when the frame is
    empty and of the InvalidParameter kind otherwise, and the text of its
    message names a violated parameter. *)
Theorem precondition_violation_raises_eagerly w ref df :
  heap w !! ref = Some df ->
  (forall resolution value_column default_value fill_value base buffer_value,
     (exists p, rasterize_offending df resolution value_column buffer_value p) ->
     exists e p,
       rasterize_vector ref resolution value_column default_value fill_value base
                        buffer_value w = (Raise e, w) /\
       kind_of e = expected_kind df /\
       rasterize_offending df resolution value_column buffer_value p /\
       Py.mentions p (Py.exn_message e) = true) /\
  (forall target_column resolution extent variogram m drift_terms,
     (exists p, kriging_offending df target_column resolution p) ->
     exists e p,
       kriging ref target_column resolution extent variogram m drift_terms w = (Raise e, w) /\
       kind_of e = expected_kind df /\
       kriging_offending df target_column resolution p /\
       Py.mentions p (Py.exn_message e) = true).
Proof.
  intros Hheap. split.
  - intros resolution value_column default_value fill_value base buffer_value [p0 Hoff].
    destruct (rasterize_check df resolution value_column buffer_value) as [e|] eqn:Hcheck.
    + destruct (rasterize_check_Some _ _ _ _ _ Hcheck) as (Hkind & p & Hp & Hm).
      exists e, p. split; [|easy].
      now apply (rasterize_vector_raise _ _ df).
    + apply rasterize_check_valid in Hcheck.
      now elim (rasterize_offending_invalid _ _ _ _ _ Hoff).
  - intros target_column resolution extent variogram m drift_terms [p0 Hoff].
    destruct (kriging_check df target_column resolution drift_terms) as [e|] eqn:Hcheck.
    + destruct (kriging_check_Some _ _ _ _ _ Hcheck (ex_intro _ p0 Hoff))
        as (Hkind & p & Hp & Hm).
      exists e, p. split; [|easy].
      now apply (kriging_raise _ _ df).
    + apply kriging_check_valid in Hcheck.
      now elim (kriging_offending_invalid _ _ _ drift_terms _ Hoff).
Qed.

End Preconditions.

(** ** Drift terms *)

Section DriftTerms.
Context {G : Type} {SG : Shapely G} {RG : Rasterio G} {PK : PyKrige}.
Implicit Types (w : world G) (df : GeoDataFrame G).

Lemma unknown_term_check df target_column resolution drift_terms :
  (exists term, In term drift_terms /\ ~ In term recognised_drift_terms) ->
  exists e, kriging_check df target_column resolution drift_terms = Some e /\
            (df_len df <> 0%nat -> kind_of e = InvalidParameter) /\
            (df_len df = 0%nat -> kind_of e = EmptyInput).
Proof.
  intros (term & Hterm & Hbad). unfold kriging_check. rewrite df_empty_len.
  destruct (df_len df =? 0)%nat eqn:Hlen.
  { apply Nat.eqb_eq in Hlen. eexists. split; [reflexivity|]. split; [congruence|reflexivity]. }
  apply Nat.eqb_neq in Hlen.
  destruct (negb (Py.py_in target_column (df_columns df))).
  { eexists. split; [reflexivity|]. split; [reflexivity|congruence]. }
  destruct ((fst resolution <=? 0) || (snd resolution <=? 0))%Z.
  { eexists. split; [reflexivity|]. split; [reflexivity|congruence]. }
  assert (Hex : existsb (fun term => negb (Py.py_in term recognised_drift_terms))
                        drift_terms = true).
  { apply existsb_exists. exists term. split; [assumption|].
    apply negb_true_iff. now apply py_in_not_In. }
  rewrite Hex. eexists. split; [reflexivity|]. split; [reflexivity|congruence].
Qed.

(** C4, as amended.  A kriging call, in either mode, whose drift-term list
    holds a term outside the five recognised ones raises before any fitting
    or evaluation: the world is left as it was.  On a non-empty sample set
    the exception is of the InvalidParameter kind; on an empty one the
    emptiness check comes first and the kind is EmptyInput. *)
Theorem unknown_drift_term_raises_eagerly w ref df target_column resolution extent
    variogram m drift_terms :
  heap w !! ref = Some df ->
  (exists term, In term drift_terms /\ ~ In term recognised_drift_terms) ->
  exists e,
    kriging ref target_column resolution extent variogram m drift_terms w = (Raise e, w) /\
    (df_len df <> 0%nat -> kind_of e = InvalidParameter) /\
    (df_len df = 0%nat -> kind_of e = EmptyInput).
Proof.
  intros Hheap Hbad.
  destruct (unknown_term_check df target_column resolution drift_terms Hbad)
    as (e & Hcheck & Hkinds).
  exists e. split; [|exact Hkinds]. now apply (kriging_raise _ _ df).
Qed.

End DriftTerms.

(** ** Effect on the caller's frame; metadata *)

Section FrameAndMetadata.
Context {G : Type} {SG : Shapely G} {RG : Rasterio G} {PK : PyKrige}.
Implicit Types (w : world G) (df : GeoDataFrame G).

Lemma rasterize_vector_heap w ref df resolution value_column default_value fill_value
    base buffer_value :
  heap w !! ref = Some df ->
  heap (snd (rasterize_vector ref resolution value_column default_value fill_value base
                              buffer_value w)) =
  match rasterize_check df resolution value_column buffer_value with
  | Some _ => heap w
  | None => heap (after_buffer ref df buffer_value w)
  end.
Proof.
  intros Hheap.
  destruct (rasterize_check df resolution value_column buffer_value) as [e|] eqn:Hcheck.
  - now rewrite (rasterize_vector_raise _ _ df _ _ _ _ _ _ e).
  - apply rasterize_check_valid in Hcheck.
    rewrite (rasterize_vector_run _ _ df) by assumption.
    apply _rasterize_vector_heap.
Qed.

(** C1, as amended.  A rasterize call leaves every other frame of the store
    alone.  Without a buffer distance, and whenever a precondition fails,
    the caller's frame is unchanged too.  With a buffer distance b >= 0 on a
    call that passes the preconditions, the geometry column of the caller's
    own frame is overwritten in place with the buffers of its geometries;
    its crs and attribute columns stay as they were. *)
Theorem rasterize_vector_effect_on_input w ref df resolution value_column default_value
    fill_value base buffer_value :
  heap w !! ref = Some df ->
  let w' := snd (rasterize_vector ref resolution value_column default_value fill_value base
                                  buffer_value w) in
  (forall ref', ref' <> ref -> heap w' !! ref' = heap w !! ref') /\
  (buffer_value = None -> heap w' = heap w) /\
  (~ rasterize_valid df resolution value_column buffer_value -> heap w' = heap w) /\
  (forall b, buffer_value = Some b ->
     rasterize_valid df resolution value_column buffer_value ->
     heap w' !! ref =
       Some {| crs := crs df;
               geometry := map (fun geom => buffer geom b) (geometry df);
               attrs := attrs df |}).
Proof.
  intros Hheap w'. subst w'. rewrite (rasterize_vector_heap _ _ df) by assumption.
  destruct (rasterize_check df resolution value_column buffer_value) as [e|] eqn:Hcheck.
  - assert (Hinvalid : ~ rasterize_valid df resolution value_column buffer_value).
    { intros Hvalid. apply rasterize_check_valid in Hvalid. congruence. }
    repeat split; try reflexivity. intros b _ Hvalid. contradiction.
  - apply rasterize_check_valid in Hcheck.
    destruct buffer_value as [b|]; simpl.
    + split; [|split; [|split]].
      * intros ref' Hne. now apply lookup_insert_ne.
      * discriminate.
      * intros Hinvalid. contradiction.
      * intros b' [= <-] _. apply lookup_insert_eq.
    + repeat split; try reflexivity. intros b [=].
Qed.

(** C2, as amended.  A successful rasterize call returns metadata with the
    keys transform (an affine transform), width and height.  A successful
    kriging call returns metadata with crs (the crs of the input frame),
    width and height (the node counts of the grid) and without a transform
    key. *)
Theorem returned_metadata_keys w ref df :
  heap w !! ref = Some df ->
  (forall resolution value_column default_value fill_value base buffer_value arr
          (meta : gmap string meta_val) w',
     rasterize_vector ref resolution value_column default_value fill_value base
                      buffer_value w = (Ok (arr, meta), w') ->
     exists tr width height,
       meta !! "transform" = Some (MTransform tr) /\
       meta !! "width" = Some (MNum width) /\
       meta !! "height" = Some (MNum height)) /\
  (forall target_column resolution extent variogram m drift_terms arr
          (meta : gmap string meta_val) w',
     kriging ref target_column resolution extent variogram m drift_terms w =
       (Ok (arr, meta), w') ->
     meta !! "crs" = Some (MCrs (crs df)) /\
     (exists nx, meta !! "width" = Some (MInt nx)) /\
     (exists ny, meta !! "height" = Some (MInt ny)) /\
     meta !! "transform" = None).
Proof.
  intros Hheap. split.
  - intros resolution value_column default_value fill_value base buffer_value arr meta w'.
    destruct (rasterize_check df resolution value_column buffer_value) as [e|] eqn:Hcheck.
    { rewrite (rasterize_vector_raise _ _ df _ _ _ _ _ _ e) by assumption. discriminate. }
    apply rasterize_check_valid in Hcheck.
    rewrite (rasterize_vector_run _ _ df) by assumption.
    assert (Hheap' : exists df', heap (after_buffer ref df buffer_value w) !! ref = Some df').
    { destruct buffer_value as [b|]; simpl; [|eauto]. eexists. apply lookup_insert_eq. }
    destruct Hheap' as [df' Hheap'].
    rewrite (_rasterize_vector_run _ _ df') by assumption.
    destruct (rasterize_shapes df' value_column) as [shapes|]; [|discriminate].
    destruct (grid_frame df' base resolution) as [[[width height] tr]|]; [|discriminate].
    cbv zeta. destruct (features_rasterize _ _ _ _ _) as [arr0|]; [|discriminate].
    intros [= <- <- <-]. exists tr, width, height. now split.
  - intros target_column resolution [[[e0 e1] e2] e3] variogram m drift_terms arr meta w'.
    destruct (kriging_check df target_column resolution drift_terms) as [e|] eqn:Hcheck.
    { rewrite (kriging_raise _ _ df _ _ _ _ _ _ e) by assumption. discriminate. }
    apply kriging_check_valid in Hcheck.
    rewrite (kriging_run _ _ df) by assumption.
    rewrite (_kriging_run _ _ df) by assumption.
    destruct (points_xy (geometry df)) as [[|xy cs]|]; try discriminate.
    destruct (getitem df target_column) as [z|]; [|discriminate].
    destruct (Np.linspace e0 e1 (fst resolution)) as [gx|]; [|discriminate].
    destruct (Np.linspace e2 e3 (snd resolution)) as [gy|]; [|discriminate].
    cbv zeta. destruct (as_floats z) as [zf|]; [|discriminate].
    destruct (fit_model _ _ _ _ _ _) as [model|]; [|discriminate].
    destruct (execute_grid model gx gy) as [[zi ss]|]; [|discriminate].
    intros [= <- <- <-]. unfold kriging_meta. repeat split; eauto.
Qed.

End FrameAndMetadata.

(** ** The interpolation grid *)

Section Linspace.
Implicit Types (a b : Q) (num : Z) (l : list Q).

Lemma linspace_total a b num : (0 <= num)%Z -> exists l, Np.linspace a b num = Ok l.
Proof.
  intros Hnum. unfold Np.linspace.
  destruct (num <? 0)%Z eqn:Hneg; [apply Z.ltb_lt in Hneg; lia|]. eauto.
Qed.

Lemma linspace_length a b num l : Np.linspace a b num = Ok l -> length l = Z.to_nat num.
Proof.
  unfold Np.linspace. destruct (num <? 0)%Z; [discriminate|].
  intros [= <-]. destruct (1 <? Z.to_nat num)%nat.
  - now rewrite length_insert, length_map, length_seq.
  - now rewrite length_map, length_seq.
Qed.

(** Every node lies on the line from [a] to [b]. *)
Lemma linspace_node a b num l i x :
  Np.linspace a b num = Ok l ->
  l !! i = Some x ->
  x == a + inject_Z (Z.of_nat i) * ((b - a) / inject_Z (num - 1)).
Proof.
  unfold Np.linspace. destruct (num <? 0)%Z eqn:Hneg; [discriminate|].
  apply Z.ltb_ge in Hneg. intros [= <-].
  set (f := fun k : nat => inject_Z (Z.of_nat k) * ((b - a) / inject_Z (num - 1)) + a).
  assert (Hmap : forall y, map f (seq 0 (Z.to_nat num)) !! i = Some y ->
                           y == a + inject_Z (Z.of_nat i) * ((b - a) / inject_Z (num - 1))).
  { intros y Hy. change (map f (seq 0 (Z.to_nat num))) with (f <$> seq 0 (Z.to_nat num)) in Hy.
    rewrite list_lookup_fmap in Hy.
    destruct (seq 0 (Z.to_nat num) !! i) as [k|] eqn:Hk; [|discriminate].
    apply lookup_seq in Hk as [-> _]. injection Hy as <-. unfold f. simpl. ring. }
  destruct (1 <? Z.to_nat num)%nat eqn:Hn; [|auto].
  apply Nat.ltb_lt in Hn.
  destruct (decide (i = Nat.pred (Z.to_nat num))) as [->|Hne].
  - rewrite list_lookup_insert_eq by (rewrite length_map, length_seq; lia).
    intros [= <-].
    assert (Hi : inject_Z (Z.of_nat (Nat.pred (Z.to_nat num))) == inject_Z (num - 1)).
    { apply inject_Z_injective. lia. }
    rewrite Hi. field.
    change 0 with (inject_Z 0). intros Hz.
    apply (proj1 (inject_Z_injective _ _)) in Hz. lia.
  - rewrite list_lookup_insert_ne by congruence. auto.
Qed.

Lemma linspace_head a b num l :
  Np.linspace a b num = Ok l -> (0 < num)%Z -> exists x, head l = Some x /\ x == a.
Proof.
  intros Hl Hnum. pose proof (linspace_length _ _ _ _ Hl) as Hlen.
  destruct l as [|x l]; [simpl in Hlen; lia|].
  exists x. split; [reflexivity|].
  rewrite (linspace_node _ _ _ _ 0%nat x Hl eq_refl). simpl. ring.
Qed.

Lemma linspace_last a b num l :
  Np.linspace a b num = Ok l -> (2 <= num)%Z -> last l = Some b.
Proof.
  unfold Np.linspace. destruct (num <? 0)%Z; [discriminate|].
  intros [= <-] Hnum.
  assert (Hn : (1 < Z.to_nat num)%nat) by lia.
  apply Nat.ltb_lt in Hn as Hb. rewrite Hb.
  rewrite last_lookup, length_insert, length_map, length_seq.
  apply list_lookup_insert_eq. rewrite length_map, length_seq. lia.
Qed.

End Linspace.

Section Interpolator.
Context {G : Type} {SG : Shapely G} {RG : Rasterio G} {PK : PyKrige}.
Implicit Types (w : world G) (df : GeoDataFrame G).

Lemma points_xy_length (gs : list G) : forall cs, points_xy gs = Some cs -> length cs = length gs.
Proof.
  induction gs as [|g gs IH]; simpl; intros cs.
  - now intros [= <-].
  - destruct (point_xy g); [|discriminate].
    destruct (points_xy gs) as [xys|]; [|discriminate].
    intros [= <-]. simpl. now rewrite (IH xys).
Qed.

(** C5. On a valid kriging call (non-empty frame, target column present,
    both resolution components positive, recognised drift terms), in either
    mode: whenever the call returns, the array has [resolution[1]] rows of
    [resolution[0]] entries, hence [resolution[0] * resolution[1]] cells,
    and the metadata's width and height are [resolution[0]] and
    [resolution[1]]; and the call does return whenever the samples are
    points with numeric target values and pykrige fits the model and
    evaluates it on the grid.  The shape of pykrige's grid estimates is
    taken from its interface ([execute_shape_ok]). *)
Theorem kriging_grid_dimensions w ref df target_column resolution e0 e1 e2 e3 variogram m
    drift_terms :
  execute_shape_ok ->
  heap w !! ref = Some df ->
  kriging_valid df target_column resolution drift_terms ->
  let out := kriging ref target_column resolution (e0, e1, e2, e3) variogram m drift_terms w in
  (forall arr (meta : gmap string meta_val) w',
     out = (Ok (arr, meta), w') ->
     Np.nrows arr = Z.to_nat (snd resolution) /\
     Np.has_width (Z.to_nat (fst resolution)) arr /\
     Z.of_nat (Np.cells arr) = (fst resolution * snd resolution)%Z /\
     meta !! "width" = Some (MInt (fst resolution)) /\
     meta !! "height" = Some (MInt (snd resolution))) /\
  (forall cs z zf model,
     points_xy (geometry df) = Some cs ->
     getitem df target_column = Some z ->
     as_floats z = Some zf ->
     fit_model m (map fst cs) (map snd cs) zf variogram drift_terms = Ok model ->
     exists gx gy,
       Np.linspace e0 e1 (fst resolution) = Ok gx /\
       Np.linspace e2 e3 (snd resolution) = Ok gy /\
       forall zi ss,
         execute_grid model gx gy = Ok (zi, ss) ->
         exists (meta : gmap string meta_val) w', out = (Ok (Np.getdata zi, meta), w')).
Proof.
  intros Hshape Hheap Hvalid out. subst out.
  rewrite (kriging_run _ _ df) by assumption.
  rewrite (_kriging_run _ _ df) by assumption.
  destruct Hvalid as (Hemp & _ & Hr0 & Hr1 & _).
  destruct (linspace_total e0 e1 (fst resolution)) as [gx Hgx]; [lia|].
  destruct (linspace_total e2 e3 (snd resolution)) as [gy Hgy]; [lia|].
  pose proof (linspace_length _ _ _ _ Hgx) as Hlx.
  pose proof (linspace_length _ _ _ _ Hgy) as Hly.
  rewrite Hgx, Hgy. split.
  - intros arr meta w'.
    destruct (points_xy (geometry df)) as [[|xy cs]|]; try discriminate.
    destruct (getitem df target_column) as [z|]; [|discriminate].
    cbv zeta. destruct (as_floats z) as [zf|]; [|discriminate].
    destruct (fit_model _ _ _ _ _ _) as [model|]; [|discriminate].
    destruct (execute_grid model gx gy) as [[zi ss]|] eqn:Hex; [|discriminate].
    intros [= <- <- <-].
    destruct (Hshape model gx gy zi ss Hex) as [Hrows Hwidth].
    unfold Np.getdata. rewrite Hlx in Hwidth. rewrite Hly in Hrows.
    split; [exact Hrows|]. split; [exact Hwidth|]. split.
    + rewrite (has_width_cells _ _ Hwidth), Hrows. lia.
    + unfold kriging_meta. rewrite Hlx, Hly, !Z2Nat.id by lia. now split.
  - intros cs z zf model Hcs Hz Hzf Hfit. exists gx, gy. split; [reflexivity|].
    split; [reflexivity|]. intros zi ss Hex.
    rewrite Hcs, Hz. destruct cs as [|xy cs].
    + apply points_xy_length in Hcs. rewrite df_empty_len in Hemp.
      apply Nat.eqb_neq in Hemp. unfold df_len in Hemp. simpl in Hcs. lia.
    + cbv zeta. rewrite Hzf, Hfit, Hex. eauto.
Qed.

(** C9. A valid kriging call reads its extent as (x_min, x_max, y_min,
    y_max): the only grids it hands to pykrige are
    [linspace(extent[0], extent[1], resolution[0])] for x and
    [linspace(extent[2], extent[3], resolution[1])] for y, so the x nodes
    start at [extent[0]] and, when there are two or more, end at
    [extent[1]], and the y nodes run likewise from [extent[2]] to
    [extent[3]].  The grid frame deriver reads its bounds as (min_x, min_y,
    max_x, max_y): its width comes from components 0 and 2 and its height
    from components 1 and 3. *)
Theorem kriging_extent_axis_order w ref df target_column resolution e0 e1 e2 e3 variogram m
    drift_terms :
  heap w !! ref = Some df ->
  kriging_valid df target_column resolution drift_terms ->
  let out := kriging ref target_column resolution (e0, e1, e2, e3) variogram m drift_terms w in
  (exists gx gy evs,
     Np.linspace e0 e1 (fst resolution) = Ok gx /\
     Np.linspace e2 e3 (snd resolution) = Ok gy /\
     trace (snd out) = trace w ++ evs /\
     (forall gx' gy', In (EvExecute gx' gy') evs -> gx' = gx /\ gy' = gy) /\
     (forall r, fst out = Ok r -> In (EvExecute gx gy) evs) /\
     (exists x, head gx = Some x /\ x == e0) /\
     ((2 <= fst resolution)%Z -> last gx = Some e1) /\
     (exists y, head gy = Some y /\ y == e2) /\
     ((2 <= snd resolution)%Z -> last gy = Some e3) /\
     (forall i x, gx !! i = Some x ->
        x == e0 + inject_Z (Z.of_nat i) * ((e1 - e0) / inject_Z (fst resolution - 1))) /\
     (forall i y, gy !! i = Some y ->
        y == e2 + inject_Z (Z.of_nat i) * ((e3 - e2) / inject_Z (snd resolution - 1)))) /\
  (forall cell_size b0 b1 b2 b3,
     total_bounds df = Some (b0, b1, b2, b3) ->
     exists tr,
       _transform_from_geometries df cell_size =
       Some ((b2 - b0) / cell_size, (b3 - b1) / cell_size, tr)).
Proof.
  intros Hheap Hvalid out. subst out. split.
  2:{ intros cell_size b0 b1 b2 b3 Hb. unfold _transform_from_geometries. rewrite Hb. eauto. }
  rewrite (kriging_run _ _ df) by assumption.
  rewrite (_kriging_run _ _ df) by assumption.
  destruct Hvalid as (_ & _ & Hr0 & Hr1 & _).
  destruct (linspace_total e0 e1 (fst resolution)) as [gx Hgx]; [lia|].
  destruct (linspace_total e2 e3 (snd resolution)) as [gy Hgy]; [lia|].
  assert (Hnodes :
    (exists x, head gx = Some x /\ x == e0) /\
    ((2 <= fst resolution)%Z -> last gx = Some e1) /\
    (exists y, head gy = Some y /\ y == e2) /\
    ((2 <= snd resolution)%Z -> last gy = Some e3) /\
    (forall i x, gx !! i = Some x ->
       x == e0 + inject_Z (Z.of_nat i) * ((e1 - e0) / inject_Z (fst resolution - 1))) /\
    (forall i y, gy !! i = Some y ->
       y == e2 + inject_Z (Z.of_nat i) * ((e3 - e2) / inject_Z (snd resolution - 1)))).
  { split; [apply (linspace_head _ e1 (fst resolution) _ Hgx); lia|].
    split; [apply (linspace_last e0 _ _ _ Hgx)|].
    split; [apply (linspace_head _ e3 (snd resolution) _ Hgy); lia|].
    split; [apply (linspace_last e2 _ _ _ Hgy)|].
    split; intros i x Hx; eapply linspace_node; eassumption. }
  rewrite Hgx, Hgy. exists gx, gy.
  assert (Hnil : forall gx' gy', In (EvExecute gx' gy') [] -> gx' = gx /\ gy' = gy)
    by (intros ? ? []).
  assert (Hfit : forall k gx' gy', In (EvExecute gx' gy') [EvFit m k] -> gx' = gx /\ gy' = gy).
  { intros k gx' gy' [Heq|[]]. discriminate Heq. }
  assert (Hboth : forall k gx' gy',
            In (EvExecute gx' gy') [EvFit m k; EvExecute gx gy] -> gx' = gx /\ gy' = gy).
  { intros k gx' gy' [Heq|[Heq|[]]]; [discriminate Heq|]. now injection Heq as <- <-. }
  assert (Hdone : forall evs (o : result (list (list Q) * gmap string meta_val)) w',
            trace w' = trace w ++ evs ->
            (forall gx' gy', In (EvExecute gx' gy') evs -> gx' = gx /\ gy' = gy) ->
            (forall r, o = Ok r -> In (EvExecute gx gy) evs) ->
            exists evs0,
              Ok gx = Ok gx /\ Ok gy = Ok gy /\
              trace (snd (o, w')) = trace w ++ evs0 /\
              (forall gx' gy', In (EvExecute gx' gy') evs0 -> gx' = gx /\ gy' = gy) /\
              (forall r, fst (o, w') = Ok r -> In (EvExecute gx gy) evs0) /\
              (exists x, head gx = Some x /\ x == e0) /\
              ((2 <= fst resolution)%Z -> last gx = Some e1) /\
              (exists y, head gy = Some y /\ y == e2) /\
              ((2 <= snd resolution)%Z -> last gy = Some e3) /\
              (forall i x, gx !! i = Some x ->
                 x == e0 + inject_Z (Z.of_nat i) * ((e1 - e0) / inject_Z (fst resolution - 1))) /\
              (forall i y, gy !! i = Some y ->
                 y == e2 + inject_Z (Z.of_nat i) * ((e3 - e2) / inject_Z (snd resolution - 1)))).
  { intros evs o w' Htr Hev Hok. exists evs. do 5 (split; [easy|]). exact Hnodes. }
  destruct (points_xy (geometry df)) as [[|xy cs]|].
  1,3: apply (Hdone []); [now rewrite app_nil_r | exact Hnil | discriminate].
  destruct (getitem df target_column) as [z|].
  2: apply (Hdone []); [now rewrite app_nil_r | exact Hnil | discriminate].
  cbv zeta. destruct (as_floats z) as [zf|].
  2: apply (Hdone [EvFit m (length z)]); [reflexivity | apply Hfit | discriminate].
  destruct (fit_model _ _ _ _ _ _) as [model|].
  2: apply (Hdone [EvFit m (length z)]); [reflexivity | apply Hfit | discriminate].
  destruct (execute_grid model gx gy) as [[zi ss]|].
  - apply (Hdone [EvFit m (length z); EvExecute gx gy]);
      [reflexivity | apply Hboth | intros _ _; right; now left].
  - apply (Hdone [EvFit m (length z); EvExecute gx gy]);
      [reflexivity | apply Hboth | discriminate].
Qed.

(** When a kriging call succeeds, and with what. *)
Lemma kriging_ok_eq w ref df target_column resolution e0 e1 e2 e3 variogram m drift_terms
    cs z zf gx gy model zi ss :
  heap w !! ref = Some df ->
  kriging_valid df target_column resolution drift_terms ->
  points_xy (geometry df) = Some cs ->
  getitem df target_column = Some z ->
  as_floats z = Some zf ->
  Np.linspace e0 e1 (fst resolution) = Ok gx ->
  Np.linspace e2 e3 (snd resolution) = Ok gy ->
  fit_model m (map fst cs) (map snd cs) zf variogram drift_terms = Ok model ->
  execute_grid model gx gy = Ok (zi, ss) ->
  kriging ref target_column resolution (e0, e1, e2, e3) variogram m drift_terms w =
  (Ok (Np.getdata zi, kriging_meta df gx gy),
   {| heap := heap w; trace := trace w ++ [EvFit m (length z); EvExecute gx gy] |}).
Proof.
  intros Hheap Hvalid Hcs Hz Hzf Hgx Hgy Hfit Hex.
  rewrite (kriging_run _ _ df) by assumption.
  rewrite (_kriging_run _ _ df) by assumption.
  rewrite Hcs, Hz, Hgx, Hgy. destruct cs as [|xy cs].
  - destruct Hvalid as (Hemp & _). apply points_xy_length in Hcs.
    rewrite df_empty_len in Hemp. apply Nat.eqb_neq in Hemp.
    unfold df_len in Hemp. simpl in Hcs. lia.
  - cbv zeta. now rewrite Hzf, Hfit, Hex.
Qed.

End Interpolator.

(** ** The grid frame *)

Section GridFrame.
Context {G : Type} {SG : Shapely G} {RG : Rasterio G} {PK : PyKrige}.
Implicit Types (w : world G) (df : GeoDataFrame G).

Lemma Qmin_cases (x y : Q) : (Qmin x y = x /\ x <= y) \/ (Qmin x y = y /\ y <= x).
Proof.
  unfold Qmin, GenericMinMax.gmin. destruct (Qcompare x y) eqn:Hc.
  - left. split; [reflexivity|]. apply Qle_lteq. right. now apply Qeq_alt.
  - left. split; [reflexivity|]. apply Qlt_alt in Hc. now apply Qlt_le_weak.
  - right. split; [reflexivity|]. apply Qgt_alt in Hc. now apply Qlt_le_weak.
Qed.

Lemma Qmax_cases (x y : Q) : (Qmax x y = x /\ y <= x) \/ (Qmax x y = y /\ x <= y).
Proof.
  unfold Qmax, GenericMinMax.gmax. destruct (Qcompare x y) eqn:Hc.
  - left. split; [reflexivity|]. apply Qle_lteq. right. symmetry. now apply Qeq_alt.
  - right. split; [reflexivity|]. apply Qlt_alt in Hc. now apply Qlt_le_weak.
  - left. split; [reflexivity|]. apply Qgt_alt in Hc. now apply Qlt_le_weak.
Qed.

(** Folding [union_bounds] keeps an extent an extent. *)
Lemma fold_union_extent (gs : list G) : forall (seen : list G) (acc : Q * Q * Q * Q),
  is_extent seen acc ->
  is_extent (seen ++ gs) (fold_left union_bounds (map bounds gs) acc).
Proof.
  induction gs as [|g gs IH]; intros seen acc Hacc; simpl.
  - now rewrite app_nil_r.
  - replace (seen ++ g :: gs) with ((seen ++ [g]) ++ gs) by now rewrite <- app_assoc.
    apply IH. clear IH.
    destruct acc as [[[ax0 ay0] ax1] ay1].
    destruct (bounds g) as [[[gx0 gy0] gx1] gy1] eqn:Hg.
    destruct Hacc as (Hall & Hx0 & Hy0 & Hx1 & Hy1). simpl.
    split; [|split; [|split; [|split]]].
    + intros g' x0 y0 x1 y1 Hin Hb. apply in_app_iff in Hin as [Hin|[<-|[]]].
      * destruct (Hall g' x0 y0 x1 y1 Hin Hb) as (H0 & H1 & H2 & H3).
        repeat split.
        -- eapply Qle_trans; [apply Q.le_min_l|exact H0].
        -- eapply Qle_trans; [apply Q.le_min_l|exact H1].
        -- eapply Qle_trans; [exact H2|apply Q.le_max_l].
        -- eapply Qle_trans; [exact H3|apply Q.le_max_l].
      * rewrite Hg in Hb. injection Hb as <- <- <- <-.
        repeat split; first [apply Q.le_min_r | apply Q.le_max_r].
    + destruct (Qmin_cases ax0 gx0) as [[-> _]|[-> _]].
      * destruct Hx0 as (g' & Hin & Heq). exists g'. split; [|exact Heq].
        apply in_app_iff. now left.
      * exists g. split; [apply in_app_iff; right; now left|]. now rewrite Hg.
    + destruct (Qmin_cases ay0 gy0) as [[-> _]|[-> _]].
      * destruct Hy0 as (g' & Hin & Heq). exists g'. split; [|exact Heq].
        apply in_app_iff. now left.
      * exists g. split; [apply in_app_iff; right; now left|]. now rewrite Hg.
    + destruct (Qmax_cases ax1 gx1) as [[-> _]|[-> _]].
      * destruct Hx1 as (g' & Hin & Heq). exists g'. split; [|exact Heq].
        apply in_app_iff. now left.
      * exists g. split; [apply in_app_iff; right; now left|]. now rewrite Hg.
    + destruct (Qmax_cases ay1 gy1) as [[-> _]|[-> _]].
      * destruct Hy1 as (g' & Hin & Heq). exists g'. split; [|exact Heq].
        apply in_app_iff. now left.
      * exists g. split; [apply in_app_iff; right; now left|]. now rewrite Hg.
Qed.

Lemma total_bounds_extent df :
  geometry df <> [] ->
  exists extent, total_bounds df = Some extent /\ is_extent (geometry df) extent.
Proof.
  unfold total_bounds. destruct (geometry df) as [|g gs]; [congruence|]. intros _.
  eexists. split; [reflexivity|].
  apply (fold_union_extent gs [g] (bounds g)).
  destruct (bounds g) as [[[x0 y0] x1] y1] eqn:Hg. simpl.
  split; [|repeat split; exists g; (split; [now left | now rewrite Hg])].
  intros g' u0 v0 u1 v1 [<-|[]] Hb. rewrite Hg in Hb. injection Hb as <- <- <- <-.
  repeat split; apply Qle_refl.
Qed.


End GridFrame.

(** ** The rasteriser *)

Section Rasterizer.
Context {G : Type} {SG : Shapely G} {RG : Rasterio G} {PK : PyKrige}.
Implicit Types (w : world G) (df : GeoDataFrame G).

Lemma after_buffer_lookup w ref df buffer_value :
  heap w !! ref = Some df ->
  heap (after_buffer ref df buffer_value w) !! ref = Some (frame_after df buffer_value).
Proof.
  intros Hheap. destruct buffer_value as [b|]; simpl; [|exact Hheap].
  apply lookup_insert_eq.
Qed.

Lemma frame_after_geometry df buffer_value :
  geometry (frame_after df buffer_value) = burned_geometries df buffer_value.
Proof. now destruct buffer_value. Qed.

Lemma burn_values_frame_after df buffer_value value_column default_value :
  burn_values (frame_after df buffer_value) value_column default_value =
  burn_values df value_column default_value.
Proof.
  destruct buffer_value as [b|]; [|reflexivity].
  destruct value_column as [c|]; simpl; [reflexivity|].
  unfold df_len. simpl. now rewrite length_map.
Qed.

Lemma zip_replicate (gs : list G) (d : Q) :
  zip gs (replicate (length gs) d) = map (fun g => (g, d)) gs.
Proof. induction gs as [|g gs IH]; simpl; [reflexivity|]. now rewrite IH. Qed.

Lemma shape_pairs_geoms (d : Q) (gs : list G) : forall (hs : list G) pairs,
  shape_pairs d (zip_with Valued gs (map CGeom hs)) = Some pairs -> pairs = [].
Proof.
  destruct gs as [|g gs]; intros [|h hs] pairs; simpl; first [now intros [= <-] | discriminate].
Qed.

(** The pairs that are burned are the geometries zipped with their values. *)
Lemma burn_pairs_values df value_column default_value shapes pairs :
  rasterize_shapes df value_column = Ok shapes ->
  shape_pairs default_value shapes = Some pairs ->
  geometry df <> [] ->
  exists values,
    burn_values df value_column default_value = Some values /\
    pairs = zip (geometry df) values.
Proof.
  unfold rasterize_shapes, burn_values, getitem.
  destruct value_column as [c|].
  - destruct (String.eqb c "geometry").
    + intros [= <-] Hpairs Hne. destruct (geometry df) as [|g gs]; [contradiction|].
      discriminate Hpairs.
    + destruct (assoc c (attrs df)) as [qs|]; simpl; [|discriminate].
      intros [= <-]. rewrite shape_pairs_valued. intros [= <-] _. eauto.
  - intros [= <-]. rewrite shape_pairs_bare. intros [= <-] _.
    eexists. split; [reflexivity|]. unfold df_len. now rewrite zip_replicate.
Qed.

Lemma burn_values_pairs df value_column default_value values :
  burn_values df value_column default_value = Some values ->
  exists shapes,
    rasterize_shapes df value_column = Ok shapes /\
    shape_pairs default_value shapes = Some (zip (geometry df) values).
Proof.
  unfold rasterize_shapes, burn_values, getitem.
  destruct value_column as [c|].
  - destruct (String.eqb c "geometry"); [discriminate|].
    intros ->. simpl. eexists. split; [reflexivity|]. apply shape_pairs_valued.
  - intros [= <-]. eexists. split; [reflexivity|].
    rewrite shape_pairs_bare. unfold df_len. now rewrite zip_replicate.
Qed.

(** What a successful rasterize call has computed. *)
Lemma rasterize_vector_ok_inv w ref df resolution value_column default_value fill_value
    base buffer_value arr (meta : gmap string meta_val) w' :
  heap w !! ref = Some df ->
  rasterize_vector ref resolution value_column default_value fill_value base
                   buffer_value w = (Ok (arr, meta), w') ->
  rasterize_valid df resolution value_column buffer_value /\
  exists width height tr values,
    grid_frame (frame_after df buffer_value) base resolution = Some (width, height, tr) /\
    meta = rasterize_meta width height tr /\
    burn_values df value_column default_value = Some values /\
    (0 < Py.round height)%Z /\ (0 < Py.round width)%Z /\
    arr = fold_left (burn tr) (zip (burned_geometries df buffer_value) values)
                    (Np.full (Z.to_nat (Py.round height)) (Z.to_nat (Py.round width))
                             fill_value) /\
    trace w' = trace (after_buffer ref df buffer_value w) ++
               [EvRasterize (Py.round height, Py.round width)].
Proof.
  intros Hheap.
  destruct (rasterize_check df resolution value_column buffer_value) as [e|] eqn:Hcheck.
  { rewrite (rasterize_vector_raise _ _ df _ _ _ _ _ _ e) by assumption. discriminate. }
  apply rasterize_check_valid in Hcheck.
  rewrite (rasterize_vector_run _ _ df) by assumption.
  rewrite (_rasterize_vector_run _ _ (frame_after df buffer_value))
    by now apply after_buffer_lookup.
  destruct (rasterize_shapes _ value_column) as [shapes|] eqn:Hshapes; [|discriminate].
  destruct (grid_frame _ base resolution) as [[[width height] tr]|]; [|discriminate].
  cbv zeta. unfold features_rasterize.
  destruct (shape_pairs default_value shapes) as [pairs|] eqn:Hpairs; [|discriminate].
  destruct (refuses_no_shapes && (length pairs =? 0)%nat); [discriminate|].
  destruct ((Py.round height <? 0) || (Py.round width <? 0))%Z eqn:Hneg; [discriminate|].
  destruct ((Py.round height =? 0) || (Py.round width =? 0))%Z eqn:Hzero; [discriminate|].
  intros [= <- <- <-]. split; [exact Hcheck|].
  apply orb_false_iff in Hneg as [Hn1 Hn2]. apply orb_false_iff in Hzero as [Hz1 Hz2].
  apply Z.ltb_ge in Hn1, Hn2. apply Z.eqb_neq in Hz1, Hz2.
  destruct (burn_pairs_values _ _ _ _ _ Hshapes Hpairs) as (values & Hvalues & Hzip).
  { rewrite frame_after_geometry. destruct Hcheck as (Hlen & _). unfold df_len in Hlen.
    destruct buffer_value as [b|]; simpl; destruct (geometry df);
      try contradiction; discriminate. }
  rewrite burn_values_frame_after in Hvalues. rewrite frame_after_geometry in Hzip.
  exists width, height, tr, values.
  split; [reflexivity|]. split; [reflexivity|]. split; [exact Hvalues|].
  split; [lia|]. split; [lia|]. split; [now rewrite Hzip|]. reflexivity.
Qed.

(** When a rasterize call succeeds, and with what. *)
Lemma rasterize_vector_ok_eq w ref df resolution value_column default_value fill_value
    base buffer_value width height tr values :
  heap w !! ref = Some df ->
  rasterize_valid df resolution value_column buffer_value ->
  grid_frame (frame_after df buffer_value) base resolution = Some (width, height, tr) ->
  burn_values df value_column default_value = Some values ->
  values <> [] ->
  (0 < Py.round height)%Z -> (0 < Py.round width)%Z ->
  rasterize_vector ref resolution value_column default_value fill_value base
                   buffer_value w =
  (Ok (fold_left (burn tr) (zip (burned_geometries df buffer_value) values)
                 (Np.full (Z.to_nat (Py.round height)) (Z.to_nat (Py.round width))
                          fill_value),
       rasterize_meta width height tr),
   {| heap := heap (after_buffer ref df buffer_value w);
      trace := trace (after_buffer ref df buffer_value w) ++
               [EvRasterize (Py.round height, Py.round width)] |}).
Proof.
  intros Hheap Hvalid Hframe Hvalues Hne Hh Hw.
  rewrite (rasterize_vector_run _ _ df) by assumption.
  rewrite (_rasterize_vector_run _ _ (frame_after df buffer_value))
    by now apply after_buffer_lookup.
  rewrite <- (burn_values_frame_after df buffer_value) in Hvalues.
  destruct (burn_values_pairs _ _ _ _ Hvalues) as (shapes & -> & Hpairs).
  rewrite Hframe. cbv zeta. unfold features_rasterize. rewrite Hpairs.
  rewrite frame_after_geometry.
  assert (Hgs : burned_geometries df buffer_value <> []).
  { destruct Hvalid as (Hlen & _). unfold df_len in Hlen.
    destruct buffer_value as [b|]; simpl.
    - destruct (geometry df); [contradiction|discriminate].
    - destruct (geometry df); [contradiction|discriminate]. }
  destruct (burned_geometries df buffer_value) as [|g gs]; [contradiction|].
  destruct values as [|v values]; [contradiction|]. simpl zip.
  cbn [length Nat.eqb]. rewrite andb_false_r.
  replace ((Py.round height <? 0) || (Py.round width <? 0))%Z with false
    by (symmetry; apply orb_false_iff; split; apply Z.ltb_ge; lia).
  replace ((Py.round height =? 0) || (Py.round width =? 0))%Z with false
    by (symmetry; apply orb_false_iff; split; apply Z.eqb_neq; lia).
  reflexivity.
Qed.

Lemma rasterize_vector_ok w ref df resolution value_column default_value fill_value
    base buffer_value width height tr values :
  heap w !! ref = Some df ->
  rasterize_valid df resolution value_column buffer_value ->
  grid_frame (frame_after df buffer_value) base resolution = Some (width, height, tr) ->
  burn_values df value_column default_value = Some values ->
  values <> [] ->
  (0 < Py.round height)%Z -> (0 < Py.round width)%Z ->
  exists arr w',
    rasterize_vector ref resolution value_column default_value fill_value base
                     buffer_value w = (Ok (arr, rasterize_meta width height tr), w').
Proof.
  intros Hheap Hvalid Hframe Hvalues Hne Hh Hw.
  rewrite (rasterize_vector_ok_eq w ref df resolution value_column default_value fill_value
             base buffer_value width height tr values) by assumption.
  eauto.
Qed.

End Rasterizer.

(** ** Rounding *)

Lemma round_tie (z : Z) :
  Py.round (inject_Z z + (1 # 2)) = if Z.even z then z else (z + 1)%Z.
Proof.
  unfold Py.round.
  assert (Hfl : Qfloor (inject_Z z + (1 # 2)) = z).
  { unfold Qfloor, Qplus, inject_Z. simpl.
    symmetry. apply (Z.div_unique _ _ _ 1); lia. }
  rewrite Hfl.
  assert (Hc : Qcompare (inject_Z z + (1 # 2) - inject_Z z) (1 # 2) = Eq).
  { apply Qeq_alt. ring. }
  now rewrite Hc.
Qed.

Lemma round_nearest (x : Q) : Qabs (x - inject_Z (Py.round x)) <= 1 # 2.
Proof.
  unfold Py.round.
  pose proof (Qfloor_le x) as Hlo. pose proof (Qlt_floor x) as Hhi.
  rewrite inject_Z_plus in Hhi. change (inject_Z 1) with 1 in Hhi.
  apply Qabs_Qle_condition.
  destruct (Qcompare (x - inject_Z (Qfloor x)) (1 # 2)) eqn:Hc.
  - apply Qeq_alt in Hc.
    destruct (Z.even (Qfloor x)); [|rewrite inject_Z_plus; change (inject_Z 1) with 1];
      split; lra.
  - apply Qlt_alt in Hc. split; lra.
  - apply Qgt_alt in Hc. rewrite inject_Z_plus. change (inject_Z 1) with 1. split; lra.
Qed.

(** ** Grid frame, array shape and cell values of a rasterize call *)

Section RasterizerClaims.
Context {G : Type} {SG : Shapely G} {RG : Rasterio G} {PK : PyKrige}.
Implicit Types (w : world G) (df : GeoDataFrame G).




Lemma valid_frame_nonempty df resolution value_column buffer_value :
  rasterize_valid df resolution value_column buffer_value ->
  geometry (frame_after df buffer_value) <> [].
Proof.
  intros (Hlen & _). unfold df_len in Hlen. rewrite frame_after_geometry.
  destruct buffer_value as [b|]; simpl; destruct (geometry df); try contradiction; discriminate.
Qed.

(** C10. On a rasterize call without a base profile that passes the
    preconditions, let width and height be the quotients computed by
    [_transform_from_geometries].  Whenever the call returns, the array has
    [round(height)] rows of [round(width)] entries, while the metadata holds
    width and height themselves; so when height (or width) is not an
    integer, the metadata's value differs from the array's dimension.  The
    call does return when both rounded dimensions are positive and there is
    a value to burn for every geometry.  [round] is the nearest integer with
    ties to even. *)
Theorem rasterize_shape_is_rounded w ref df resolution value_column default_value
    fill_value buffer_value :
  heap w !! ref = Some df ->
  rasterize_valid df resolution value_column buffer_value ->
  let out := rasterize_vector ref resolution value_column default_value fill_value None
                              buffer_value w in
  (exists width height tr,
     _transform_from_geometries (frame_after df buffer_value) resolution =
       Some (width, height, tr) /\
     (forall arr (meta : gmap string meta_val) w',
        out = (Ok (arr, meta), w') ->
        Z.of_nat (Np.nrows arr) = Py.round height /\
        Np.has_width (Z.to_nat (Py.round width)) arr /\
        (0 < Py.round width)%Z /\
        meta !! "height" = Some (MNum height) /\
        meta !! "width" = Some (MNum width) /\
        (non_integral height -> ~ height == inject_Z (Z.of_nat (Np.nrows arr))) /\
        (non_integral width -> ~ width == inject_Z (Py.round width))) /\
     (forall values,
        burn_values df value_column default_value = Some values ->
        values <> [] ->
        (0 < Py.round height)%Z -> (0 < Py.round width)%Z ->
        exists arr (meta : gmap string meta_val) w', out = (Ok (arr, meta), w'))) /\
  (forall z, Py.round (inject_Z z + (1 # 2)) = if Z.even z then z else (z + 1)%Z) /\
  (forall x, Qabs (x - inject_Z (Py.round x)) <= 1 # 2).
Proof.
  intros Hheap Hvalid out. subst out.
  split; [|split; [exact round_tie | exact round_nearest]].
  destruct (total_bounds_extent _ (valid_frame_nonempty _ _ _ _ Hvalid))
    as ([[[min_x min_y] max_x] max_y] & Hb & _).
  assert (Hframe : exists width height tr,
            _transform_from_geometries (frame_after df buffer_value) resolution =
            Some (width, height, tr)).
  { unfold _transform_from_geometries. rewrite Hb. eauto. }
  destruct Hframe as (width & height & tr & Hframe).
  exists width, height, tr. split; [exact Hframe|]. split.
  - intros arr meta w' Hrun.
    destruct (rasterize_vector_ok_inv _ _ _ _ _ _ _ _ _ _ _ _ Hheap Hrun)
      as (_ & width0 & height0 & tr0 & values & Hframe0 & -> & _ & Hh & Hw & -> & _).
    simpl in Hframe0. rewrite Hframe in Hframe0. injection Hframe0 as <- <- <-.
    destruct (fold_burn_shape tr
                (zip (burned_geometries df buffer_value) values)
                (Np.full (Z.to_nat (Py.round height)) (Z.to_nat (Py.round width)) fill_value)
                (Z.to_nat (Py.round width)))
      as [Hrows Hwidth]; [apply full_shape|].
    rewrite (proj1 (full_shape _ _ _)) in Hrows.
    split; [rewrite Hrows; lia|]. split; [exact Hwidth|]. split; [exact Hw|].
    split; [reflexivity|]. split; [reflexivity|].
    split; intros Hnon; apply Hnon.
  - intros values Hvalues Hne Hh Hw.
    destruct (rasterize_vector_ok w ref df resolution value_column default_value fill_value
                None buffer_value width height tr values) as (arr & w' & Hrun); try assumption.
    eauto.
Qed.

Lemma full_cell_inv h wd (fill : Q) r c x :
  Np.cell (Np.full h wd fill) r c = Some x -> x = fill.
Proof.
  unfold Np.cell, Np.full. intros Hcell.
  destruct (replicate h (replicate wd fill) !! r) as [row|] eqn:Hrow; [|discriminate].
  apply lookup_replicate in Hrow as [-> _]. simpl in Hcell.
  now apply lookup_replicate in Hcell as [-> _].
Qed.

Lemma rasterized_cell tr (pairs : list (G * Q)) h wd (fill : Q) r c x :
  Np.cell (fold_left (burn tr) pairs (Np.full h wd fill)) r c = Some x ->
  x = default fill (last_cover tr r c pairs).
Proof.
  rewrite fold_burn_cell.
  destruct (Np.cell (Np.full h wd fill) r c) as [old|] eqn:Hold; [|discriminate].
  apply full_cell_inv in Hold as ->. now intros [= <-].
Qed.

Lemma zip_lookup (gs : list G) (vs : list Q) i g v :
  zip gs vs !! i = Some (g, v) <-> gs !! i = Some g /\ vs !! i = Some v.
Proof.
  rewrite lookup_zip_with_Some. split.
  - intros (g' & v' & [= -> ->] & Hg & Hv). easy.
  - intros [Hg Hv]. eauto.
Qed.

Lemma assoc_wf (P : string * list Q -> Prop) c cols vs :
  Forall P cols -> assoc c cols = Some vs -> P (c, vs).
Proof.
  induction 1 as [|[k v] cols Hk _ IH]; simpl; [discriminate|].
  destruct (String.eqb k c) eqn:Hkc; [|exact IH].
  apply String.eqb_eq in Hkc as ->. now intros [= <-].
Qed.

Lemma burn_values_length df value_column default_value values :
  df_wf df ->
  burn_values df value_column default_value = Some values ->
  length values = df_len df.
Proof.
  unfold burn_values. intros Hwf. destruct value_column as [c|].
  - destruct (String.eqb c "geometry"); [discriminate|]. intros Hc.
    now destruct (assoc_wf _ _ _ _ Hwf Hc).
  - intros [= <-]. apply length_replicate.
Qed.

Lemma burned_geometries_length df buffer_value :
  length (burned_geometries df buffer_value) = df_len df.
Proof. destruct buffer_value; simpl; [apply length_map | reflexivity]. Qed.

(** C7. On a successful rasterize call the result is a function of the
    arguments and the world, and a cell covered by several geometries holds
    the value of the last of them in the order of the frame: if the i-th
    burned geometry covers the cell and no later one does, the cell holds
    the i-th value (the value-column entry, or the default value).  The
    burned geometries are the frame's, buffered when a buffer distance is
    given; the footprint is taken on the grid of the returned transform. *)
Theorem overlap_last_geometry_wins w ref df resolution value_column default_value
    fill_value base buffer_value arr (meta : gmap string meta_val) w' :
  heap w !! ref = Some df ->
  rasterize_vector ref resolution value_column default_value fill_value base
                   buffer_value w = (Ok (arr, meta), w') ->
  (forall out, out = rasterize_vector ref resolution value_column default_value fill_value
                                      base buffer_value w -> out = (Ok (arr, meta), w')) /\
  exists tr values,
    meta !! "transform" = Some (MTransform tr) /\
    burn_values df value_column default_value = Some values /\
    forall r c x i g v,
      Np.cell arr r c = Some x ->
      burned_geometries df buffer_value !! i = Some g ->
      values !! i = Some v ->
      covers g tr r c = true ->
      (forall j g', (i < j)%nat -> burned_geometries df buffer_value !! j = Some g' ->
                    covers g' tr r c = false) ->
      x = v.
Proof.
  intros Hheap Hrun. split; [now intros out -> |].
  destruct (rasterize_vector_ok_inv _ _ _ _ _ _ _ _ _ _ _ _ Hheap Hrun)
    as (_ & width & height & tr & values & _ & -> & Hvalues & _ & _ & -> & _).
  exists tr, values. split; [reflexivity|]. split; [exact Hvalues|].
  intros r c x i g v Hcell Hg Hv Hcov Hlater.
  apply rasterized_cell in Hcell. subst x.
  rewrite (last_cover_lookup tr r c _ i g v); [reflexivity| |exact Hcov|].
  - now apply zip_lookup.
  - intros j g' v' Hj Hjth. apply zip_lookup in Hjth as [Hg' _]. now apply (Hlater j g').
Qed.

(** The general half of C8. *)
Lemma fill_outside_value_inside_general w ref df resolution value_column default_value
    fill_value base buffer_value arr (meta : gmap string meta_val) w' :
  df_wf df ->
  heap w !! ref = Some df ->
  rasterize_vector ref resolution value_column default_value fill_value base
                   buffer_value w = (Ok (arr, meta), w') ->
  exists tr values,
    meta !! "transform" = Some (MTransform tr) /\
    burn_values df value_column default_value = Some values /\
    forall r c x,
      Np.cell arr r c = Some x ->
      ((forall g, In g (burned_geometries df buffer_value) -> covers g tr r c = false) ->
       x = fill_value) /\
      ((exists g, In g (burned_geometries df buffer_value) /\ covers g tr r c = true) ->
       (value_column = None -> x = default_value) /\
       (exists i g v,
          burned_geometries df buffer_value !! i = Some g /\
          values !! i = Some v /\
          covers g tr r c = true /\
          x = v)).
Proof.
  intros Hwf Hheap Hrun.
  destruct (rasterize_vector_ok_inv _ _ _ _ _ _ _ _ _ _ _ _ Hheap Hrun)
    as (_ & width & height & tr & values & _ & -> & Hvalues & _ & _ & -> & _).
  exists tr, values. split; [reflexivity|]. split; [exact Hvalues|].
  intros r c x Hcell. apply rasterized_cell in Hcell. subst x.
  set (gs := burned_geometries df buffer_value).
  assert (Hlen : length values = length gs).
  { unfold gs. rewrite burned_geometries_length. now apply (burn_values_length df value_column default_value). }
  split.
  - intros Hnone.
    assert (Hlc : last_cover tr r c (zip gs values) = None).
    { apply last_cover_None. intros g v Hin.
      apply list_elem_of_In, list_elem_of_lookup in Hin as [i Hi].
      apply zip_lookup in Hi as [Hg _]. apply Hnone.
      apply list_elem_of_In, list_elem_of_lookup. eauto. }
    now rewrite Hlc.
  - intros (g & Hin & Hcov).
    destruct (last_cover tr r c (zip gs values)) as [v|] eqn:Hlc.
    + simpl. destruct (last_cover_Some _ _ _ _ _ Hlc) as (g' & Hin' & Hcov').
      apply list_elem_of_In, list_elem_of_lookup in Hin' as [i Hi].
      apply zip_lookup in Hi as [Hg' Hv']. split.
      * intros ->. simpl in Hvalues. injection Hvalues as <-.
        now apply lookup_replicate in Hv' as [-> _].
      * exists i, g', v. easy.
    + exfalso. apply list_elem_of_In, list_elem_of_lookup in Hin as [i Hi].
      assert (Hv : is_Some (values !! i)).
      { apply lookup_lt_is_Some. rewrite Hlen. now apply lookup_lt_Some in Hi. }
      destruct Hv as [v Hv].
      rewrite (proj1 (last_cover_None tr r c (zip gs values)) Hlc g v) in Hcov;
        [discriminate|].
      apply list_elem_of_In, list_elem_of_lookup. exists i. now apply zip_lookup.
Qed.

End RasterizerClaims.

(** C8. On a successful rasterize call on a well-formed frame, a cell that
    no burned geometry covers holds the fill value, and a cell that some
    burned geometry covers holds the default value when there is no value
    column and otherwise the value-column entry of a geometry that covers it
    (the last one, by the overlap rule).  In particular one square polygon
    covering (0,0)-(10,10), rasterized with resolution 1, default value 5
    and fill value 0, gives a 10 x 10 array holding 5 in every cell, all of
    which lie inside the polygon. *)
Theorem fill_outside_value_inside :
  (forall (G : Type) (SG : Shapely G) (RG : Rasterio G) (w : world G) ref df resolution
          value_column default_value fill_value base buffer_value arr
          (meta : gmap string meta_val) w',
     df_wf df ->
     heap w !! ref = Some df ->
     rasterize_vector ref resolution value_column default_value fill_value base
                      buffer_value w = (Ok (arr, meta), w') ->
     exists tr values,
       meta !! "transform" = Some (MTransform tr) /\
       burn_values df value_column default_value = Some values /\
       forall r c x,
         Np.cell arr r c = Some x ->
         ((forall g, In g (burned_geometries df buffer_value) -> covers g tr r c = false) ->
          x = fill_value) /\
         ((exists g, In g (burned_geometries df buffer_value) /\ covers g tr r c = true) ->
          (value_column = None -> x = default_value) /\
          (exists i g v,
             burned_geometries df buffer_value !! i = Some g /\
             values !! i = Some v /\
             covers g tr r c = true /\
             x = v))) /\
  match fst (rasterize_vector 0 1 None 5 0 None None
                              (Planar.world_of [Planar.square_frame])) with
  | Ok (arr, meta) =>
      arr = replicate 10 (replicate 10 5) /\
      exists tr,
        meta !! "transform" = Some (MTransform tr) /\
        forall r c, (r < 10)%nat -> (c < 10)%nat ->
                    covers (Planar.Box 0 0 10 10) tr r c = true
  | Raise _ => False
  end.
Proof.
  split.
  - intros G SG RG w ref df resolution value_column default_value fill_value base
           buffer_value arr meta w'.
    apply fill_outside_value_inside_general.
  - erewrite (rasterize_vector_ok_eq (Planar.world_of [Planar.square_frame]) 0
                Planar.square_frame 1 None 5 0 None None _ _ _ [5]);
      [|reflexivity | repeat split; first [reflexivity | discriminate] | reflexivity | reflexivity
       | discriminate | reflexivity | reflexivity].
    cbn [fst]. split; [vm_compute; reflexivity|].
    eexists. split; [reflexivity|].
    intros r c Hr Hc.
    do 10 (destruct r as [|r];
           [do 10 (destruct c as [|c]; [vm_compute; reflexivity|]); lia|]).
    lia.
Qed.

(** ** Further behaviour of the rasteriser *)

Lemma round_comp (x y : Q) : x == y -> Py.round x = Py.round y.
Proof.
  intros Hxy. unfold Py.round. rewrite (Qfloor_comp _ _ Hxy).
  assert (Hd : x - inject_Z (Qfloor y) == y - inject_Z (Qfloor y)) by now rewrite Hxy.
  now rewrite (Qcompare_comp _ _ Hd (1 # 2) (1 # 2) (Qeq_refl _)).
Qed.

Section RasterizerEdges.
Context {G : Type} {SG : Shapely G} {RG : Rasterio G} {PK : PyKrige}.
Implicit Types (w : world G) (df : GeoDataFrame G).

Lemma assoc_In_fst c (cols : list (string * list Q)) :
  In c (map fst cols) -> exists vs, assoc c cols = Some vs.
Proof.
  induction cols as [|[k v] cols IH]; simpl; [intros []|].
  intros [->|Hin].
  - rewrite String.eqb_refl. eauto.
  - destruct (String.eqb k c); eauto.
Qed.

Lemma getitem_present df c : In c (df_columns df) -> exists vs, getitem df c = Some vs.
Proof.
  unfold df_columns, getitem. intros Hin.
  destruct (String.eqb c "geometry") eqn:Hc; [eauto|].
  apply in_app_iff in Hin as [Hin|[<-|[]]].
  - destruct (assoc_In_fst _ _ Hin) as [vs ->]. simpl. eauto.
  - now rewrite String.eqb_refl in Hc.
Qed.

Lemma frame_after_columns df buffer_value :
  df_columns (frame_after df buffer_value) = df_columns df.
Proof. now destruct buffer_value. Qed.

Lemma features_rasterize_zero (shapes : list (shape G)) fill default_value tr h wd :
  (h = 0 \/ wd = 0)%Z ->
  exists e,
    features_rasterize shapes fill default_value tr (h, wd) = Raise e /\
    (forall pairs, shape_pairs default_value shapes = Some pairs ->
                   exists msg, e = Py.ValueError msg).
Proof.
  intros Hzero. unfold features_rasterize.
  destruct (shape_pairs default_value shapes) as [pairs|].
  - destruct (refuses_no_shapes && (length pairs =? 0)%nat); [eauto|].
    destruct ((h <? 0) || (wd <? 0))%Z; [eauto|].
    replace ((h =? 0) || (wd =? 0))%Z with true; [eauto|].
    symmetry. apply orb_true_iff. destruct Hzero as [->| ->]; [now left | now right].
  - eexists. split; [reflexivity|]. discriminate.
Qed.

(** X1. A rasterize call without a base profile that passes every
    precondition still fails when the extent of the (buffered) geometries
    has no width or no height, as for a single point: the quotient rounds
    to 0, the burn-in is requested on a grid without cells and raises (a
    [ValueError] when the default value is burned); no array is
    returned. *)
Theorem rasterize_degenerate_extent_raises w ref df resolution value_column default_value
    fill_value buffer_value min_x min_y max_x max_y :
  heap w !! ref = Some df ->
  rasterize_valid df resolution value_column buffer_value ->
  total_bounds (frame_after df buffer_value) = Some (min_x, min_y, max_x, max_y) ->
  max_x == min_x \/ max_y == min_y ->
  exists e sh,
    rasterize_vector ref resolution value_column default_value fill_value None
                     buffer_value w =
    (Raise e,
     {| heap := heap (after_buffer ref df buffer_value w);
        trace := trace (after_buffer ref df buffer_value w) ++ [EvRasterize sh] |}) /\
    (fst sh = 0 \/ snd sh = 0)%Z /\
    (value_column = None -> exists msg, e = Py.ValueError msg).
Proof.
  intros Hheap Hvalid Hb Hflat.
  rewrite (rasterize_vector_run _ _ df) by assumption.
  rewrite (_rasterize_vector_run _ _ (frame_after df buffer_value))
    by now apply after_buffer_lookup.
  assert (Hshapes : exists shapes,
            rasterize_shapes (frame_after df buffer_value) value_column = Ok shapes).
  { unfold rasterize_shapes. destruct value_column as [c|]; [|eauto].
    destruct Hvalid as (_ & _ & Hcol & _).
    destruct (getitem_present (frame_after df buffer_value) c) as [vs ->]; [|eauto].
    rewrite frame_after_columns. now apply Hcol. }
  destruct Hshapes as [shapes Hshapes]. rewrite Hshapes.
  unfold grid_frame, _transform_from_geometries. rewrite Hb. cbv zeta.
  assert (Hres : ~ resolution == 0).
  { destruct Hvalid as (_ & Hres & _). intros Hz. rewrite Hz in Hres.
    now apply Qlt_irrefl in Hres. }
  assert (Hzero : (Py.round ((max_y - min_y) / resolution) = 0 \/
                   Py.round ((max_x - min_x) / resolution) = 0)%Z).
  { destruct Hflat as [Hx|Hy].
    - right. change 0%Z with (Py.round 0). apply round_comp. rewrite Hx. now field.
    - left. change 0%Z with (Py.round 0). apply round_comp. rewrite Hy. now field. }
  destruct (features_rasterize_zero shapes fill_value default_value
              (Affine.from_bounds min_x min_y max_x max_y
                 ((max_x - min_x) / resolution) ((max_y - min_y) / resolution))
              _ _ Hzero) as (e & -> & Hvalue).
  exists e. eexists. split; [reflexivity|]. split; [exact Hzero|].
  intros ->. simpl in Hshapes. injection Hshapes as <-.
  apply (Hvalue _ (shape_pairs_bare _ _)).
Qed.

Lemma rasterize_valid_frame_after df resolution value_column b b' :
  rasterize_valid df resolution value_column (Some b) ->
  0 <= b' ->
  rasterize_valid (frame_after df (Some b)) resolution value_column (Some b').
Proof.
  intros (Hlen & Hres & Hcol & _) Hb'. repeat split.
  - unfold df_len in *. simpl. now rewrite length_map.
  - exact Hres.
  - exact Hcol.
  - now intros b0 [= <-].
Qed.

(** X2. Buffers accumulate across calls on the same frame: after a
    rasterize call with buffer distance b1 and a second one with distance b2
    on the same object (both passing the preconditions, whatever the burn-in
    then does), the caller's frame holds every geometry buffered by b1 and
    then by b2. *)
Theorem rasterize_twice_buffers_twice w ref df resolution value_column default_value
    fill_value base b1 b2 :
  heap w !! ref = Some df ->
  rasterize_valid df resolution value_column (Some b1) ->
  0 <= b2 ->
  let w1 := snd (rasterize_vector ref resolution value_column default_value fill_value
                                  base (Some b1) w) in
  let w2 := snd (rasterize_vector ref resolution value_column default_value fill_value
                                  base (Some b2) w1) in
  heap w2 !! ref =
  Some {| crs := crs df;
          geometry := map (fun geom => buffer (buffer geom b1) b2) (geometry df);
          attrs := attrs df |}.
Proof.
  intros Hheap Hvalid Hb2 w1 w2.
  assert (H1 : heap w1 !! ref = Some (frame_after df (Some b1))).
  { unfold w1. rewrite (rasterize_vector_heap _ _ df) by assumption.
    rewrite (proj2 (rasterize_check_valid _ _ _ _) Hvalid).
    now apply after_buffer_lookup. }
  pose proof (rasterize_valid_frame_after _ _ _ _ _ Hvalid Hb2) as Hvalid2.
  unfold w2. rewrite (rasterize_vector_heap _ _ (frame_after df (Some b1))) by assumption.
  rewrite (proj2 (rasterize_check_valid _ _ _ _) Hvalid2).
  rewrite (after_buffer_lookup _ _ (frame_after df (Some b1)) (Some b2)) by assumption.
  simpl. unfold set_geometry. simpl. now rewrite map_map.
Qed.

(** X3. With a base profile, the array of a successful rasterize call has
    [round(profile height)] rows of [round(profile width)] entries, whatever
    the geometries and the resolution are. *)
Theorem rasterize_shape_from_profile w ref df resolution value_column default_value
    fill_value profile buffer_value arr (meta : gmap string meta_val) w' :
  heap w !! ref = Some df ->
  rasterize_vector ref resolution value_column default_value fill_value (Some profile)
                   buffer_value w = (Ok (arr, meta), w') ->
  Z.of_nat (Np.nrows arr) = Py.round (p_height profile) /\
  Np.has_width (Z.to_nat (Py.round (p_width profile))) arr /\
  (0 < Py.round (p_width profile))%Z.
Proof.
  intros Hheap Hrun.
  destruct (rasterize_vector_ok_inv _ _ _ _ _ _ _ _ _ _ _ _ Hheap Hrun)
    as (_ & width & height & tr & values & Hframe & _ & _ & Hh & Hw & -> & _).
  simpl in Hframe. injection Hframe as <- <- <-.
  destruct (fold_burn_shape (p_transform profile)
              (zip (burned_geometries df buffer_value) values)
              (Np.full (Z.to_nat (Py.round (p_height profile)))
                       (Z.to_nat (Py.round (p_width profile))) fill_value)
              (Z.to_nat (Py.round (p_width profile))))
    as [Hrows Hwidth]; [apply full_shape|].
  rewrite (proj1 (full_shape _ _ _)) in Hrows.
  split; [rewrite Hrows; lia|]. split; [exact Hwidth | exact Hw].
Qed.

Lemma burn_swap tr (out : list (list Q)) (a b : G * Q) :
  (forall r c, covers (fst a) tr r c = true -> covers (fst b) tr r c = true ->
               snd a = snd b) ->
  burn tr (burn tr out a) b = burn tr (burn tr out b) a.
Proof.
  intros Hagree. unfold burn. apply list_eq. intros r.
  rewrite !list_lookup_imap. destruct (out !! r) as [row|]; simpl; [|reflexivity].
  f_equal. apply list_eq. intros c.
  rewrite !list_lookup_imap. destruct (row !! c) as [old|]; simpl; [|reflexivity].
  f_equal. specialize (Hagree r c).
  destruct (covers (fst a) tr r c), (covers (fst b) tr r c); try reflexivity.
  symmetry. now apply Hagree.
Qed.

Lemma fold_burn_permutation tr (l l' : list (G * Q)) :
  Permutation l l' ->
  overlaps_agree tr l ->
  forall out, fold_left (burn tr) l out = fold_left (burn tr) l' out.
Proof.
  induction 1 as [|p l l' Hperm IH|p q l|l l' l'' H1 IH1 H2 IH2]; intros Hagree out.
  - reflexivity.
  - simpl. apply IH. intros g v g' v' r c Hin Hin'.
    apply (Hagree g v g' v' r c); now right.
  - simpl. f_equal. destruct p as [g v], q as [g' v']. apply burn_swap.
    intros r c. simpl. apply (Hagree g' v' g v r c); [now left | right; now left].
  - rewrite IH1 by assumption. apply IH2.
    intros g v g' v' r c Hin Hin'.
    apply (Hagree g v g' v' r c); eapply Permutation_in;
      try eassumption; now apply Permutation_sym.
Qed.

(** X4. The order of the features matters only where geometries with
    different values overlap.  Take two frames whose rows (burned geometry
    with its value) are a permutation of each other and rasterize both into
    the same base profile: if geometries that cover a common cell carry the
    same value (so in particular if no two overlap, or without a value
    column), the two arrays are equal. *)
Theorem rasterize_order_independent w ref1 ref2 df1 df2 resolution value_column
    default_value fill_value profile buffer_value values1 values2 arr1 arr2
    (meta1 meta2 : gmap string meta_val) w1 w2 :
  heap w !! ref1 = Some df1 ->
  heap w !! ref2 = Some df2 ->
  burn_values df1 value_column default_value = Some values1 ->
  burn_values df2 value_column default_value = Some values2 ->
  Permutation (zip (burned_geometries df1 buffer_value) values1)
              (zip (burned_geometries df2 buffer_value) values2) ->
  overlaps_agree (p_transform profile)
                 (zip (burned_geometries df1 buffer_value) values1) ->
  rasterize_vector ref1 resolution value_column default_value fill_value (Some profile)
                   buffer_value w = (Ok (arr1, meta1), w1) ->
  rasterize_vector ref2 resolution value_column default_value fill_value (Some profile)
                   buffer_value w = (Ok (arr2, meta2), w2) ->
  arr1 = arr2.
Proof.
  intros Hheap1 Hheap2 Hv1 Hv2 Hperm Hagree Hrun1 Hrun2.
  destruct (rasterize_vector_ok_inv _ _ _ _ _ _ _ _ _ _ _ _ Hheap1 Hrun1)
    as (_ & wd1 & ht1 & tr1 & vs1 & Hf1 & _ & Hvs1 & _ & _ & -> & _).
  destruct (rasterize_vector_ok_inv _ _ _ _ _ _ _ _ _ _ _ _ Hheap2 Hrun2)
    as (_ & wd2 & ht2 & tr2 & vs2 & Hf2 & _ & Hvs2 & _ & _ & -> & _).
  simpl in Hf1, Hf2. injection Hf1 as <- <- <-. injection Hf2 as <- <- <-.
  rewrite Hv1 in Hvs1. injection Hvs1 as <-.
  rewrite Hv2 in Hvs2. injection Hvs2 as <-.
  now apply fold_burn_permutation.
Qed.

(** X8. The value column "geometry" passes the preconditions of
    [rasterize_vector], since it is a column of the frame, but its entries
    are geometries, not numbers: on a non-empty frame the call enters the
    burn-in and raises there. *)
Theorem rasterize_geometry_as_value_column w ref df resolution default_value fill_value
    base buffer_value :
  heap w !! ref = Some df ->
  df_len df <> 0%nat ->
  0 < resolution ->
  (forall b, buffer_value = Some b -> 0 <= b) ->
  rasterize_check df resolution (Some "geometry") buffer_value = None /\
  exists e sh,
    rasterize_vector ref resolution (Some "geometry") default_value fill_value base
                     buffer_value w =
    (Raise e,
     {| heap := heap (after_buffer ref df buffer_value w);
        trace := trace (after_buffer ref df buffer_value w) ++ [EvRasterize sh] |}).
Proof.
  intros Hheap Hlen Hres Hbuf.
  assert (Hvalid : rasterize_valid df resolution (Some "geometry") buffer_value).
  { repeat split; try assumption. intros c [= <-]. unfold df_columns.
    apply in_app_iff. right. now left. }
  split; [now apply rasterize_check_valid|].
  rewrite (rasterize_vector_run _ _ df) by assumption.
  rewrite (_rasterize_vector_run _ _ (frame_after df buffer_value))
    by now apply after_buffer_lookup.
  pose proof (valid_frame_nonempty _ _ _ _ Hvalid) as Hne.
  unfold rasterize_shapes, getitem. simpl String.eqb. cbv iota.
  assert (Hframe : exists width height tr,
            grid_frame (frame_after df buffer_value) base resolution =
            Some (width, height, tr)).
  { destruct base as [profile|]; simpl; [eauto|].
    destruct (total_bounds_extent _ Hne) as ([[[x0 y0] x1] y1] & Hb & _).
    unfold _transform_from_geometries. rewrite Hb. eauto. }
  destruct Hframe as (width & height & tr & ->). cbv zeta.
  unfold features_rasterize.
  destruct (geometry (frame_after df buffer_value)) as [|g gs]; [contradiction|].
  simpl. eauto.
Qed.

(** X13. Entered directly on a frame without rows and without a base
    profile, the burn-in raises before rasterio is called and leaves the
    world as it was: the bounds of an empty frame are nan, so are width and
    height, and [round] refuses them with a [ValueError] (unless the value
    column is missing, which is a [KeyError] before that). *)
Theorem _rasterize_vector_empty_frame_raises w ref df value_column default_value fill_value
    resolution :
  heap w !! ref = Some df ->
  geometry df = [] ->
  exists e,
    _rasterize_vector ref value_column default_value fill_value None resolution w =
      (Raise e, w) /\
    ((forall c, value_column = Some c -> In c (df_columns df)) ->
     e = Py.ValueError [Py.Lit "cannot convert float NaN to integer"]).
Proof.
  intros Hheap Hempty.
  rewrite (_rasterize_vector_run _ _ df) by assumption.
  unfold rasterize_shapes, grid_frame, _transform_from_geometries, total_bounds.
  rewrite Hempty. destruct value_column as [c|].
  - destruct (getitem df c) as [vs|] eqn:Hget.
    + eexists. split; [reflexivity|]. reflexivity.
    + eexists. split; [reflexivity|]. intros Hcol.
      destruct (getitem_present df c (Hcol c eq_refl)) as [vs Hvs]. congruence.
  - eexists. split; [reflexivity|]. reflexivity.
Qed.

End RasterizerEdges.

(** ** Further behaviour of the interpolator *)

Section InterpolatorEdges.
Context {G : Type} {SG : Shapely G} {RG : Rasterio G} {PK : PyKrige}.
Implicit Types (w : world G) (df : GeoDataFrame G).

(** X5. [kriging] only reads its frame: whatever the outcome (a result, a
    failed precondition, a failure of the solver), the store of frames is
    the one it was called with, and the calls it has made to pykrige are at
    most one fit followed by at most one grid evaluation. *)
Theorem kriging_leaves_store w ref target_column resolution extent variogram m drift_terms :
  let out := kriging ref target_column resolution extent variogram m drift_terms w in
  heap (snd out) = heap w /\
  exists evs,
    trace (snd out) = trace w ++ evs /\
    (evs = [] \/
     (exists n, evs = [EvFit m n]) \/
     (exists n gx gy, evs = [EvFit m n; EvExecute gx gy])).
Proof.
  intros out. subst out. destruct extent as [[[e0 e1] e2] e3].
  assert (Hsame : forall (o : result (list (list Q) * gmap string meta_val)),
            heap (snd (o, w)) = heap w /\
            exists evs, trace (snd (o, w)) = trace w ++ evs /\
              (evs = [] \/ (exists n, evs = [EvFit m n]) \/
               (exists n gx gy, evs = [EvFit m n; EvExecute gx gy]))).
  { intros o. split; [reflexivity|]. exists []. split; [now rewrite app_nil_r | now left]. }
  destruct (heap w !! ref) as [df|] eqn:Hheap.
  2:{ assert (Hk : kriging ref target_column resolution (e0, e1, e2, e3) variogram m
                            drift_terms w =
                    (Raise (Py.ReferenceError [Py.Lit "no such object"]), w)).
      { unfold kriging. unfold bind at 1. unfold deref. now rewrite Hheap. }
      rewrite Hk. apply Hsame. }
  destruct (kriging_check df target_column resolution drift_terms) as [e|] eqn:Hcheck.
  { rewrite (kriging_raise _ _ df _ _ _ _ _ _ e) by assumption. apply Hsame. }
  apply kriging_check_valid in Hcheck.
  rewrite (kriging_run _ _ df) by assumption.
  rewrite (_kriging_run _ _ df) by assumption.
  destruct (points_xy (geometry df)) as [[|xy cs]|]; try apply Hsame.
  destruct (getitem df target_column) as [z|]; [|apply Hsame].
  destruct (Np.linspace e0 e1 (fst resolution)) as [gx|]; [|apply Hsame].
  destruct (Np.linspace e2 e3 (snd resolution)) as [gy|]; [|apply Hsame].
  cbv zeta.
  destruct (as_floats z) as [zf|].
  2:{ split; [reflexivity|]. eexists. split; [reflexivity|]. right; left. eauto. }
  destruct (fit_model _ _ _ _ _ _) as [model|].
  2:{ split; [reflexivity|]. eexists. split; [reflexivity|]. right; left. eauto. }
  destruct (execute_grid model gx gy) as [[zi ss]|];
    (split; [reflexivity|]; eexists; split; [reflexivity|]; right; right; eauto).
Qed.

(** X6. In ordinary mode the drift terms are checked but not used: two
    calls that differ only in their (recognised) drift terms have the same
    outcome. *)
Theorem ordinary_kriging_ignores_drift_terms w ref df target_column resolution extent
    variogram drift_terms drift_terms' :
  heap w !! ref = Some df ->
  kriging_valid df target_column resolution drift_terms ->
  (forall term, In term drift_terms' -> In term recognised_drift_terms) ->
  kriging ref target_column resolution extent variogram ordinary drift_terms w =
  kriging ref target_column resolution extent variogram ordinary drift_terms' w.
Proof.
  intros Hheap Hvalid Hrec. destruct extent as [[[e0 e1] e2] e3].
  assert (Hvalid' : kriging_valid df target_column resolution drift_terms').
  { destruct Hvalid as (H1 & H2 & H3 & H4 & _). now repeat split. }
  rewrite !(kriging_run _ _ df) by assumption.
  rewrite !(_kriging_run _ _ df) by assumption.
  reflexivity.
Qed.

Lemma points_xy_None (gs : list G) :
  (exists g, In g gs /\ point_xy g = None) -> points_xy gs = None.
Proof.
  induction gs as [|g0 gs IH]; intros (g & Hin & Hg); simpl; [destruct Hin|].
  destruct Hin as [->|Hin].
  - now rewrite Hg.
  - destruct (point_xy g0); [|reflexivity]. rewrite IH; eauto.
Qed.

(** X7. The samples must be points, and this is no precondition that
    [kriging] tests: on a frame holding a geometry without [x] and [y], a
    call that passes every check raises [AttributeError] when the
    coordinates are read, before anything is fitted. *)
Theorem kriging_non_point_geometry_raises w ref df target_column resolution extent
    variogram m drift_terms :
  heap w !! ref = Some df ->
  kriging_valid df target_column resolution drift_terms ->
  (exists g, In g (geometry df) /\ point_xy g = None) ->
  kriging ref target_column resolution extent variogram m drift_terms w =
  (Raise (Py.AttributeError [Py.Lit "object has no attribute 'x'"]), w).
Proof.
  intros Hheap Hvalid Hnon. destruct extent as [[[e0 e1] e2] e3].
  rewrite (kriging_run _ _ df) by assumption.
  rewrite (_kriging_run _ _ df) by assumption.
  now rewrite (points_xy_None _ Hnon).
Qed.

End InterpolatorEdges.

(** ** The checks *)

Section CheckFacts.
Context {G : Type}.
Implicit Types (df : GeoDataFrame G).

(** X9. [check_column_index_in_dataframe] answers [False] for every frame
    and every index: no integer is at least the number of columns and below
    its negation. *)
Theorem check_column_index_never_true df (idx : Z) :
  check_column_index_in_dataframe df idx = false.
Proof.
  unfold check_column_index_in_dataframe.
  destruct (Z.of_nat (length (df_columns df)) <=? idx)%Z eqn:Hlo; [|reflexivity].
  apply Z.leb_le in Hlo. simpl. apply Z.ltb_ge. lia.
Qed.

(** X11. [check_columns_valid] is [True] exactly when every requested name
    is a column of the frame; so it holds of no names at all, and of a
    concatenation of name lists when it holds of both. *)
Theorem check_columns_valid_spec df (columns columns' : list string) :
  (check_columns_valid df columns = true <->
   forall column, In column columns -> In column (df_columns df)) /\
  check_columns_valid df [] = true /\
  check_columns_valid df (columns ++ columns') =
    check_columns_valid df columns && check_columns_valid df columns'.
Proof.
  unfold check_columns_valid. split; [|split].
  - rewrite forallb_forall. split.
    + intros Hall column Hin. apply py_in_In. now apply Hall.
    + intros Hall column Hin. apply py_in_In. now apply Hall.
  - reflexivity.
  - apply forallb_app.
Qed.

(** X12. [check_dataframe_contains_nonzero_numbers] does what its docstring
    says rather than what its name says: it is [True] exactly when some
    attribute column holds a zero, and [False] on a frame whose numbers are
    all different from zero. *)
Theorem check_contains_nonzero_is_contains_zero df :
  (check_dataframe_contains_nonzero_numbers df = true <->
   exists name values v, In (name, values) (attrs df) /\ In v values /\ v == 0) /\
  ((forall name values v, In (name, values) (attrs df) -> In v values -> ~ v == 0) ->
   check_dataframe_contains_nonzero_numbers df = false).
Proof.
  assert (Hiff : check_dataframe_contains_nonzero_numbers df = true <->
                 exists name values v, In (name, values) (attrs df) /\ In v values /\ v == 0).
  { unfold check_dataframe_contains_nonzero_numbers, df_values.
    rewrite existsb_exists. split.
    - intros (cell & Hin & Hzero). apply in_app_iff in Hin as [Hin|Hin].
      + apply in_concat in Hin as (col & Hcol & Hcell).
        apply in_map_iff in Hcol as ([name values] & <- & Hattr).
        apply in_map_iff in Hcell as (v & <- & Hv).
        exists name, values, v. repeat split; try assumption. now apply Qeq_bool_iff.
      + apply in_map_iff in Hin as (g & <- & _). discriminate.
    - intros (name & values & v & Hattr & Hv & Hzero).
      exists (CNum v). split; [|now apply Qeq_bool_iff].
      apply in_app_iff. left. apply in_concat.
      exists (map CNum values). split.
      + apply in_map_iff. now exists (name, values).
      + now apply in_map. }
  split; [exact Hiff|].
  intros Hnone. destruct (check_dataframe_contains_nonzero_numbers df) eqn:Hc; [|reflexivity].
  destruct (proj1 Hiff eq_refl) as (name & values & v & Hattr & Hv & Hzero).
  now elim (Hnone name values v).
Qed.

End CheckFacts.

Lemma epsg_codes_Some (objects : list (option Crs)) (codes : list (option Z)) :
  epsg_codes objects = Some codes <->
  objects = map (fun code => Some {| to_epsg := code |}) codes.
Proof.
  revert codes. induction objects as [|[[code]|] objects IH]; intros codes; simpl.
  - split; [now intros [= <-] | now destruct codes].
  - destruct (epsg_codes objects) as [rest|] eqn:Hrest; simpl.
    + split.
      * intros [= <-]. simpl. f_equal. now apply IH.
      * destruct codes as [|code' codes]; [discriminate|]. simpl.
        intros [= -> Hobjs]. f_equal. f_equal. apply IH in Hobjs. congruence.
    + split; [discriminate|]. destruct codes as [|code' codes]; [discriminate|]. simpl.
      intros [= -> Hobjs]. apply IH in Hobjs. discriminate.
  - split; [discriminate|]. now destruct codes.
Qed.

Lemma size_list_to_set_1 (codes : list (option Z)) :
  size (list_to_set codes : gset (option Z)) = 1%nat <->
  exists code, codes <> [] /\ forall c, In c codes -> c = code.
Proof.
  split.
  - intros Hsize. apply size_1_elem_of in Hsize as [code Hset].
    exists code. split.
    + destruct codes as [|c0 codes]; [|discriminate]. simpl in Hset. set_solver.
    + intros c Hin. apply list_elem_of_In in Hin.
      assert (Hc : c ∈ (list_to_set codes : gset (option Z)))
        by now apply elem_of_list_to_set.
      apply (proj1 (Hset c)) in Hc. now apply elem_of_singleton in Hc.
  - intros (code & Hne & Hall).
    assert (Hset : (list_to_set codes : gset (option Z)) = {[ code ]}).
    { apply set_eq. intros c. rewrite elem_of_list_to_set, elem_of_singleton. split.
      - intros Hin. apply Hall. now apply list_elem_of_In.
      - intros ->. destruct codes as [|c0 codes]; [contradiction|].
        rewrite <- (Hall c0) by now left. now left. }
    rewrite Hset. apply size_singleton.
Qed.

(** X10. [check_matching_crs] is [True] exactly when the list is not empty,
    every object has a crs, and all of them give one and the same answer to
    [to_epsg()]; that answer may be [None], so coordinate systems without an
    EPSG code count as matching each other.  An empty list and a list with
    an object without crs give [False]. *)
Theorem check_matching_crs_spec (objects : list (option Crs)) :
  (check_matching_crs objects = true <->
   objects <> [] /\
   exists code, forall o, In o objects -> exists c, o = Some c /\ to_epsg c = code) /\
  check_matching_crs [] = false /\
  (In None objects -> check_matching_crs objects = false).
Proof.
  assert (Hiff : check_matching_crs objects = true <->
                 objects <> [] /\
                 exists code, forall o, In o objects ->
                                        exists c, o = Some c /\ to_epsg c = code).
  { unfold check_matching_crs.
    destruct (epsg_codes objects) as [codes|] eqn:Hcodes.
    - apply epsg_codes_Some in Hcodes. subst objects.
      destruct (size (list_to_set codes : gset (option Z)) =? 1)%nat eqn:Hsize; simpl.
      + apply Nat.eqb_eq, size_list_to_set_1 in Hsize as (code & Hne & Hall).
        split; [intros _|reflexivity]. split.
        * destruct codes; [contradiction|discriminate].
        * exists code. intros o Hin. apply in_map_iff in Hin as (c & <- & Hc).
          eexists. split; [reflexivity|]. simpl. now apply Hall.
      + split; [discriminate|]. intros (Hne & code & Hall).
        apply Nat.eqb_neq in Hsize. elim Hsize. apply size_list_to_set_1.
        exists code. split.
        * intros ->. now apply Hne.
        * intros c Hin.
          destruct (Hall (Some {| to_epsg := c |})) as (c' & [= <-] & Hc').
          -- apply in_map_iff. now exists c.
          -- exact Hc'.
    - split; [discriminate|]. intros (_ & code & Hall). exfalso.
      revert Hcodes Hall.
      induction objects as [|[c|] objects IH]; simpl; [discriminate| |].
      + destruct (epsg_codes objects); [discriminate|]. intros _ Hall.
        apply IH; [reflexivity|]. intros o Hin. apply Hall. now right.
      + intros _ Hall. destruct (Hall None) as (c & Hc & _); [now left|discriminate]. }
  split; [exact Hiff|]. split; [reflexivity|].
  intros Hin. destruct (check_matching_crs objects) eqn:Hc; [|reflexivity].
  destruct (proj1 Hiff eq_refl) as (_ & code & Hall).
  destruct (Hall None Hin) as (c & Hc' & _). discriminate.
Qed.

(** ** Worked examples on the planar instance *)

Module Examples.
Import Planar.

Lemma precondition_violation_witness :
  let w := world_of [square_frame] in
  (exists e p,
     rasterize_vector 0 (-1) None 1 0 None None w = (Raise e, w) /\
     kind_of e = expected_kind square_frame /\
     rasterize_offending square_frame (-1) None None p /\
     Py.mentions p (Py.exn_message e) = true) /\
  (exists e p,
     kriging 0 "absent" (5, 5)%Z (0, 10, 0, 10) linear ordinary [] w = (Raise e, w) /\
     kind_of e = expected_kind square_frame /\
     kriging_offending square_frame "absent" (5, 5)%Z p /\
     Py.mentions p (Py.exn_message e) = true).
Proof.
  destruct (precondition_violation_raises_eagerly (world_of [square_frame]) 0 square_frame
              eq_refl) as [Hr Hk].
  split.
  - apply Hr. exists "resolution". right; left. split; [reflexivity|].
    intros Hlt. vm_compute in Hlt. discriminate Hlt.
  - apply Hk. exists "target_column". right; left. split; [reflexivity|].
    intros Hin. vm_compute in Hin. destruct Hin as [Heq|[]]. discriminate Heq.
Defined.

(** C4, counterexample.  In universal mode with the drift term "bogus", a
    call on an empty sample set raises [EmptyDataFrameException]: its kind
    is EmptyInput, not InvalidParameter. *)
Lemma unknown_drift_term_on_empty_set :
  let w := world_of [empty_frame] in
  (In "bogus" ["bogus"] /\ ~ In "bogus" recognised_drift_terms) /\
  kriging 0 "value" (5, 5)%Z (0, 4, 0, 4) linear universal ["bogus"] w =
    (Raise (Py.EmptyDataFrameException [Py.Lit "The input GeoDataFrame is empty."]), w) /\
  ~ (exists e,
       fst (kriging 0 "value" (5, 5)%Z (0, 4, 0, 4) linear universal ["bogus"] w) = Raise e /\
       kind_of e = InvalidParameter).
Proof.
  split; [|split].
  - split; [now left|]. intros Hin. vm_compute in Hin.
    repeat (destruct Hin as [Heq|Hin]; [discriminate Heq|]). exact Hin.
  - vm_compute. reflexivity.
  - intros (e & He & Hkind). vm_compute in He. injection He as <-. discriminate Hkind.
Qed.

Lemma unknown_drift_term_witness :
  exists e,
    kriging 0 "value" (5, 5)%Z (0, 4, 0, 4) linear universal ["bogus"]
            (world_of [triangle_frame]) = (Raise e, world_of [triangle_frame]) /\
    (df_len triangle_frame <> 0%nat -> kind_of e = InvalidParameter) /\
    (df_len triangle_frame = 0%nat -> kind_of e = EmptyInput).
Proof.
  apply (unknown_drift_term_raises_eagerly (world_of [triangle_frame]) 0 triangle_frame).
  - reflexivity.
  - exists "bogus". split; [now left|]. intros Hin. vm_compute in Hin.
    repeat (destruct Hin as [Heq|Hin]; [discriminate Heq|]). exact Hin.
Defined.

(** C1, counterexample.  Rasterizing the square with buffer distance 1
    replaces the geometry held by the caller's frame: after the call it is
    the buffered square, not the square that was passed in. *)
Lemma rasterize_buffer_overwrites_input :
  let w := world_of [square_frame] in
  let w' := snd (rasterize_vector 0 1 None 5 0 None (Some 1) w) in
  0 <= 1 /\
  geometry <$> heap w !! 0%nat = Some [Box 0 0 10 10] /\
  geometry <$> heap w' !! 0%nat = Some [Rounded 0 0 10 10 1] /\
  geometry <$> heap w' !! 0%nat <> geometry <$> heap w !! 0%nat.
Proof.
  split; [|split; [|split]].
  - discriminate.
  - vm_compute. reflexivity.
  - vm_compute. reflexivity.
  - vm_compute. discriminate.
Qed.

Lemma rasterize_vector_effect_witness :
  let w := world_of [square_frame; overlap_frame] in
  let w' := snd (rasterize_vector 0 1 None 5 0 None (Some 1) w) in
  (forall ref', ref' <> 0%nat -> heap w' !! ref' = heap w !! ref') /\
  (Some 1 = None -> heap w' = heap w) /\
  (~ rasterize_valid square_frame 1 None (Some 1) -> heap w' = heap w) /\
  (forall b, Some 1 = Some b ->
     rasterize_valid square_frame 1 None (Some 1) ->
     heap w' !! 0%nat =
       Some {| crs := crs square_frame;
               geometry := map (fun geom => buffer geom b) (geometry square_frame);
               attrs := attrs square_frame |}).
Proof.
  apply (rasterize_vector_effect_on_input
           (world_of [square_frame; overlap_frame]) 0 square_frame 1 None 5 0 None (Some 1)).
  reflexivity.
Defined.

(** C2, counterexample.  A successful kriging call on the three sample
    points returns metadata without a transform key. *)
Lemma kriging_metadata_has_no_transform :
  match fst (kriging 0 "value" (5, 5)%Z (0, 4, 0, 4) linear ordinary ["regional_linear"]
                     (world_of [triangle_frame])) with
  | Ok (arr, meta) =>
      meta !! "transform" = None /\
      meta !! "width" = Some (MInt 5) /\ meta !! "height" = Some (MInt 5) /\
      meta !! "crs" = Some (MCrs (Some 3067%Z))
  | Raise _ => False
  end.
Proof. vm_compute. repeat split. Qed.

Lemma returned_metadata_keys_witness :
  let w := world_of [triangle_frame] in
  (forall resolution value_column default_value fill_value base buffer_value arr
          (meta : gmap string meta_val) w',
     rasterize_vector 0 resolution value_column default_value fill_value base
                      buffer_value w = (Ok (arr, meta), w') ->
     exists tr width height,
       meta !! "transform" = Some (MTransform tr) /\
       meta !! "width" = Some (MNum width) /\
       meta !! "height" = Some (MNum height)) /\
  (forall target_column resolution extent variogram m drift_terms arr
          (meta : gmap string meta_val) w',
     kriging 0 target_column resolution extent variogram m drift_terms w =
       (Ok (arr, meta), w') ->
     meta !! "crs" = Some (MCrs (crs triangle_frame)) /\
     (exists nx, meta !! "width" = Some (MInt nx)) /\
     (exists ny, meta !! "height" = Some (MInt ny)) /\
     meta !! "transform" = None).
Proof.
  apply (returned_metadata_keys (world_of [triangle_frame]) 0 triangle_frame).
  reflexivity.
Defined.

(** The stand-in solver returns grids of pykrige's shape. *)
Lemma toy_shape_ok : execute_shape_ok.
Proof.
  intros model gx gy z ss. simpl. unfold toy_execute.
  destruct model as [|[[x y] z0] rest]; [discriminate|].
  intros [= <- _]. simpl. unfold Np.nrows, Np.has_width. split.
  - apply length_map.
  - apply Forall_forall. intros row Hrow.
    apply list_elem_of_In, in_map_iff in Hrow as (v & <- & _).
    apply length_map.
Qed.

Lemma triangle_valid : kriging_valid triangle_frame "value" (5, 4)%Z ["regional_linear"].
Proof.
  unfold kriging_valid. split; [reflexivity|]. split; [vm_compute; tauto|].
  split; [reflexivity|]. split; [reflexivity|].
  intros term [<-|[]]. vm_compute. tauto.
Qed.

Lemma kriging_grid_dimensions_witness :
  let out := kriging 0 "value" (5, 4)%Z (0, 4, 0, 4) linear universal ["regional_linear"]
                     (world_of [triangle_frame]) in
  execute_shape_ok /\
  kriging_valid triangle_frame "value" (5, 4)%Z ["regional_linear"] /\
  (forall arr (meta : gmap string meta_val) w',
     out = (Ok (arr, meta), w') ->
     Np.nrows arr = 4%nat /\ Np.has_width 5 arr /\ Np.cells arr = 20%nat /\
     meta !! "width" = Some (MInt 5) /\ meta !! "height" = Some (MInt 4)) /\
  exists arr (meta : gmap string meta_val) w', out = (Ok (arr, meta), w').
Proof.
  intros out.
  destruct (kriging_grid_dimensions (world_of [triangle_frame]) 0 triangle_frame "value"
              (5, 4)%Z 0 4 0 4 linear universal ["regional_linear"]
              toy_shape_ok eq_refl triangle_valid) as [Hdims Hreturns].
  split; [exact toy_shape_ok|]. split; [exact triangle_valid|]. split.
  - intros arr meta w' Hrun. destruct (Hdims arr meta w' Hrun) as (H1 & H2 & H3 & H4 & H5).
    repeat split; try assumption. simpl in H3. lia.
  - destruct (Hreturns [(0, 0); (4, 0); (0, 4)] [CNum 1; CNum 2; CNum 3] [1; 2; 3]
                       [(0, 0, 1); (4, 0, 2); (0, 4, 3)] eq_refl eq_refl eq_refl eq_refl)
      as (gx & gy & Hgx & Hgy & Hex).
    vm_compute in Hgx. injection Hgx as <-. vm_compute in Hgy. injection Hgy as <-.
    edestruct Hex as (meta & w' & Hrun); [reflexivity|]. eauto.
Defined.

Lemma triangle_run (m : method) (e2 e3 : Q) :
  exists gx gy zi,
    kriging 0 "value" (5, 4)%Z (0, 4, e2, e3) linear m ["regional_linear"]
            (world_of [triangle_frame]) =
    (Ok (Np.getdata zi, kriging_meta triangle_frame gx gy),
     {| heap := heap (world_of [triangle_frame]);
        trace := [EvFit m 3; EvExecute gx gy] |}).
Proof.
  destruct (linspace_total 0 4 5) as [gx Hgx]; [lia|].
  destruct (linspace_total e2 e3 4) as [gy Hgy]; [lia|].
  exists gx, gy.
  destruct (toy_execute [(0, 0, 1); (4, 0, 2); (0, 4, 3)] gx gy) as [[zi ss]|e] eqn:Hex;
    [|discriminate Hex].
  exists zi.
  apply (kriging_ok_eq (PK := toy_pykrige)
           (world_of [triangle_frame]) 0 triangle_frame "value" (5, 4)%Z
           0 4 e2 e3 linear m ["regional_linear"]
           [(0, 0); (4, 0); (0, 4)] [CNum 1; CNum 2; CNum 3] [1; 2; 3] gx gy
           [(0, 0, 1); (4, 0, 2); (0, 4, 3)] zi ss);
    try reflexivity; try assumption.
  - exact triangle_valid.
  - now destruct m.
Qed.

Lemma kriging_extent_witness :
  let out := kriging 0 "value" (5, 4)%Z (0, 4, 10, 16) linear ordinary ["regional_linear"]
                     (world_of [triangle_frame]) in
  kriging_valid triangle_frame "value" (5, 4)%Z ["regional_linear"] /\
  exists gx gy evs,
    trace (snd out) = evs /\ In (EvExecute gx gy) evs /\
    (exists x, head gx = Some x /\ x == 0) /\ last gx = Some 4 /\
    (exists y, head gy = Some y /\ y == 10) /\ last gy = Some 16.
Proof.
  intros out.
  destruct (kriging_extent_axis_order (world_of [triangle_frame]) 0 triangle_frame "value"
              (5, 4)%Z 0 4 10 16 linear ordinary ["regional_linear"] eq_refl triangle_valid)
    as [(gx & gy & evs & _ & _ & Htrace & _ & Hin & Hx0 & Hx1 & Hy0 & Hy1 & _) _].
  split; [exact triangle_valid|].
  exists gx, gy, evs. split; [exact Htrace|]. split.
  - destruct (triangle_run ordinary 10 16) as (gx' & gy' & zi & Hrun).
    apply (Hin (Np.getdata zi, kriging_meta triangle_frame gx' gy')).
    now rewrite Hrun.
  - split; [exact Hx0|]. split; [apply Hx1; simpl; lia|].
    split; [exact Hy0|]. apply Hy1. simpl. lia.
Defined.

Lemma square_valid (resolution : Q) :
  0 < resolution -> rasterize_valid square_frame resolution None None.
Proof. intros Hres. repeat split; [discriminate | exact Hres | discriminate | discriminate]. Qed.


Lemma overlap_run :
  exists tr,
    rasterize_vector 0 1 (Some "value") 5 0 None None (world_of [overlap_frame]) =
    (Ok ([[7; 9; 9; 9]; [7; 9; 9; 9]], rasterize_meta 4 2 tr),
     {| heap := heap (world_of [overlap_frame]); trace := [EvRasterize (2, 4)%Z] |}).
Proof.
  eexists.
  erewrite (rasterize_vector_ok_eq (world_of [overlap_frame]) 0 overlap_frame 1
              (Some "value") 5 0 None None _ _ _ [7; 9]);
    [|reflexivity
     |repeat split; first [reflexivity | discriminate | intros c [= <-]; vm_compute; tauto]
     |reflexivity | reflexivity | discriminate | reflexivity | reflexivity].
  vm_compute. reflexivity.
Qed.

Lemma overlap_witness :
  let w := world_of [overlap_frame] in
  match rasterize_vector 0 1 (Some "value") 5 0 None None w with
  | (Ok (arr, meta), _) =>
      arr = [[7; 9; 9; 9]; [7; 9; 9; 9]] /\
      exists tr values,
        meta !! "transform" = Some (MTransform tr) /\
        burn_values overlap_frame (Some "value") 5 = Some values /\
        forall x, Np.cell arr 0 1 = Some x ->
                  geometry overlap_frame !! 1%nat = Some (Box 1 0 4 2) ->
                  values !! 1%nat = Some 9 ->
                  covers (Box 1 0 4 2) tr 0 1 = true ->
                  x = 9
  | (Raise _, _) => False
  end.
Proof.
  intros w. destruct overlap_run as [tr0 Hrun0]. fold w in Hrun0.
  destruct (rasterize_vector 0 1 (Some "value") 5 0 None None w)
    as [[[arr meta]|e] w'] eqn:Hrun; [|discriminate Hrun0].
  destruct (overlap_last_geometry_wins w 0 overlap_frame 1 (Some "value") 5 0 None None
              arr meta w' eq_refl Hrun) as (_ & tr & values & Htr & Hvalues & Hcells).
  injection Hrun0 as -> _ _.
  split; [reflexivity|]. exists tr, values. split; [exact Htr|]. split; [exact Hvalues|].
  intros x Hcell Hg Hv Hcov.
  apply (Hcells 0%nat 1%nat x 1%nat (Box 1 0 4 2) 9); try assumption.
  intros j g' Hj Hlook. destruct j as [|[|j]]; [lia|lia|discriminate Hlook].
Defined.

Lemma fill_outside_witness :
  let w := world_of [square_frame] in
  df_wf square_frame /\
  match rasterize_vector 0 1 None 5 0 None None w with
  | (Ok (arr, meta), _) =>
      exists tr values,
        meta !! "transform" = Some (MTransform tr) /\
        burn_values square_frame None 5 = Some values /\
        forall r c x,
          Np.cell arr r c = Some x ->
          ((forall g, In g (geometry square_frame) -> covers g tr r c = false) -> x = 0) /\
          ((exists g, In g (geometry square_frame) /\ covers g tr r c = true) -> x = 5)
  | (Raise _, _) => False
  end.
Proof.
  intros w.
  assert (Hwf : df_wf square_frame) by constructor.
  split; [exact Hwf|].
  assert (Hrun0 : exists r w0, rasterize_vector 0 1 None 5 0 None None w = (Ok r, w0)).
  { erewrite (rasterize_vector_ok_eq w 0 square_frame 1 None 5 0 None None _ _ _ [5]);
      [eauto | reflexivity | apply square_valid; reflexivity | reflexivity | reflexivity
       | discriminate | reflexivity | reflexivity]. }
  destruct Hrun0 as (r0 & w0 & Hrun0).
  destruct (rasterize_vector 0 1 None 5 0 None None w) as [[[arr meta]|e] w'] eqn:Hrun;
    [|discriminate Hrun0].
  destruct (proj1 fill_outside_value_inside geom _ _ w 0%nat square_frame 1 None 5 0 None None
              arr meta w' Hwf eq_refl Hrun) as (tr & values & Htr & Hvalues & Hcells).
  exists tr, values. split; [exact Htr|]. split; [exact Hvalues|].
  intros r c x Hcell. destruct (Hcells r c x Hcell) as [Hout Hin].
  split; [exact Hout|]. intros Hcov. now apply Hin.
Defined.

Lemma rasterize_shape_witness :
  let w := world_of [square_frame] in
  rasterize_valid square_frame 3 None None /\
  exists width height tr,
    _transform_from_geometries square_frame 3 = Some (width, height, tr) /\
    width == 10 # 3 /\ Py.round width = 3%Z /\ non_integral width /\
    (forall arr (meta : gmap string meta_val) w',
       rasterize_vector 0 3 None 5 0 None None w = (Ok (arr, meta), w') ->
       Z.of_nat (Np.nrows arr) = Py.round height /\
       Np.has_width (Z.to_nat (Py.round width)) arr /\
       meta !! "width" = Some (MNum width) /\
       ~ width == inject_Z (Py.round width)) /\
    exists arr (meta : gmap string meta_val) w',
      rasterize_vector 0 3 None 5 0 None None w = (Ok (arr, meta), w').
Proof.
  intros w.
  assert (Hvalid : rasterize_valid square_frame 3 None None) by now apply square_valid.
  destruct (rasterize_shape_is_rounded w 0 square_frame 3 None 5 0 None eq_refl Hvalid)
    as [(width & height & tr & Hframe & Hshape & Hreturns) _].
  split; [exact Hvalid|]. exists width, height, tr.
  simpl frame_after in Hframe. split; [exact Hframe|].
  vm_compute in Hframe. injection Hframe as <- <- <-.
  assert (Hnon : non_integral (10 # 3)).
  { intros z Hz. unfold Qeq in Hz. simpl in Hz. lia. }
  split; [reflexivity|]. split; [reflexivity|]. split; [exact Hnon|]. split.
  - intros arr meta w' Hrun.
    destruct (Hshape arr meta w' Hrun) as (H1 & H2 & _ & _ & H5 & _ & H7).
    repeat split; try assumption. now apply H7.
  - apply (Hreturns [5]); [reflexivity | discriminate | reflexivity | reflexivity].
Defined.

(** Rounding goes to the even neighbour on a tie. *)
Example round_half_even :
  Py.round (5 # 2) = 2%Z /\ Py.round (7 # 2) = 4%Z /\ Py.round (10 # 3) = 3%Z.
Proof. repeat split. Qed.

(** The square burned into a larger existing grid: the ring of cells around
    it keeps the fill value. *)
Example square_in_base_profile :
  let profile := {| p_width := 12; p_height := 12;
                    p_transform := Affine.mk 1 0 (-1) 0 (-1) 11 |} in
  fst (rasterize_vector 0 1 None 5 0 (Some profile) None (world_of [square_frame])) =
  Ok ([replicate 12 0] ++ replicate 10 ([0] ++ replicate 10 5 ++ [0]) ++ [replicate 12 0],
      rasterize_meta 12 12 (Affine.mk 1 0 (-1) 0 (-1) 11)).
Proof. vm_compute. reflexivity. Qed.

(** *** Witnesses of the further properties *)

Import Fixtures.

Lemma point_valid : rasterize_valid point_frame 1 None None.
Proof. repeat split; first [reflexivity | discriminate]. Qed.

Lemma degenerate_extent_witness :
  let w := world_of [point_frame] in
  rasterize_valid point_frame 1 None None /\
  total_bounds point_frame = Some (2, 3, 2, 3) /\
  exists e sh,
    rasterize_vector 0 1 None 5 0 None None w =
    (Raise e, {| heap := heap w; trace := trace w ++ [EvRasterize sh] |}) /\
    (fst sh = 0 \/ snd sh = 0)%Z /\
    (@None string = None -> exists msg, e = Py.ValueError msg).
Proof.
  intros w. split; [exact point_valid|]. split; [reflexivity|].
  apply (rasterize_degenerate_extent_raises w 0 point_frame 1 None 5 0 None 2 3 2 3).
  - reflexivity.
  - exact point_valid.
  - reflexivity.
  - left. reflexivity.
Defined.

Lemma buffers_twice_witness :
  let w := world_of [square_frame] in
  let w1 := snd (rasterize_vector 0 1 None 5 0 None (Some 1) w) in
  let w2 := snd (rasterize_vector 0 1 None 5 0 None (Some 2) w1) in
  heap w2 !! 0%nat =
  Some {| crs := crs square_frame;
          geometry := map (fun geom => buffer (buffer geom 1) 2) (geometry square_frame);
          attrs := attrs square_frame |}.
Proof.
  apply (rasterize_twice_buffers_twice (world_of [square_frame]) 0 square_frame 1 None 5 0
           None 1 2).
  - reflexivity.
  - repeat split; first [reflexivity | discriminate | intros b [= <-]; discriminate].
  - discriminate.
Defined.

Lemma overlap_valid : rasterize_valid overlap_frame 1 (Some "value") None.
Proof.
  repeat split; first [reflexivity | discriminate | intros c [= <-]; vm_compute; tauto].
Qed.

Lemma shape_from_profile_witness :
  let w := world_of [overlap_frame] in
  match rasterize_vector 0 1 (Some "value") 5 0 (Some small_profile) None w with
  | (Ok (arr, _), _) =>
      Z.of_nat (Np.nrows arr) = Py.round (p_height small_profile) /\
      Np.has_width (Z.to_nat (Py.round (p_width small_profile))) arr /\
      (0 < Py.round (p_width small_profile))%Z
  | (Raise _, _) => False
  end.
Proof.
  intros w.
  assert (Hrun0 : exists r w0,
            rasterize_vector 0 1 (Some "value") 5 0 (Some small_profile) None w = (Ok r, w0)).
  { erewrite (rasterize_vector_ok_eq w 0 overlap_frame 1 (Some "value") 5 0
                (Some small_profile) None _ _ _ [7; 9]);
      [eauto | reflexivity | exact overlap_valid | reflexivity | reflexivity
       | discriminate | reflexivity | reflexivity]. }
  destruct Hrun0 as (r0 & w0 & Hrun0).
  destruct (rasterize_vector 0 1 (Some "value") 5 0 (Some small_profile) None w)
    as [[[arr meta]|e] w'] eqn:Hrun; [|discriminate Hrun0].
  apply (rasterize_shape_from_profile w 0 overlap_frame 1 (Some "value") 5 0 small_profile
           None arr meta w' eq_refl Hrun).
Defined.

Lemma equal_value_valid (df : GeoDataFrame geom) :
  df = equal_value_frame \/ df = equal_value_frame_swapped ->
  rasterize_valid df 1 (Some "value") None.
Proof.
  intros [-> | ->];
    repeat split; first [reflexivity | discriminate | intros c [= <-]; vm_compute; tauto].
Qed.

Lemma order_independent_witness :
  let w := world_of [equal_value_frame; equal_value_frame_swapped] in
  match rasterize_vector 0 1 (Some "value") 5 0 (Some small_profile) None w,
        rasterize_vector 1 1 (Some "value") 5 0 (Some small_profile) None w with
  | (Ok (arr1, _), _), (Ok (arr2, _), _) => arr1 = arr2
  | _, _ => False
  end.
Proof.
  intros w.
  assert (Hrun1 : exists r w0,
            rasterize_vector 0 1 (Some "value") 5 0 (Some small_profile) None w = (Ok r, w0)).
  { erewrite (rasterize_vector_ok_eq w 0 equal_value_frame 1 (Some "value") 5 0
                (Some small_profile) None _ _ _ [7; 7]);
      [eauto | reflexivity | apply equal_value_valid; now left | reflexivity | reflexivity
       | discriminate | reflexivity | reflexivity]. }
  assert (Hrun2 : exists r w0,
            rasterize_vector 1 1 (Some "value") 5 0 (Some small_profile) None w = (Ok r, w0)).
  { erewrite (rasterize_vector_ok_eq w 1 equal_value_frame_swapped 1 (Some "value") 5 0
                (Some small_profile) None _ _ _ [7; 7]);
      [eauto | reflexivity | apply equal_value_valid; now right | reflexivity | reflexivity
       | discriminate | reflexivity | reflexivity]. }
  destruct Hrun1 as (r1 & v1 & Hrun1). destruct Hrun2 as (r2 & v2 & Hrun2).
  destruct (rasterize_vector 0 1 (Some "value") 5 0 (Some small_profile) None w)
    as [[[arr1 meta1]|e1] w1] eqn:H1; [|discriminate Hrun1].
  destruct (rasterize_vector 1 1 (Some "value") 5 0 (Some small_profile) None w)
    as [[[arr2 meta2]|e2] w2] eqn:H2; [|discriminate Hrun2].
  apply (rasterize_order_independent w 0 1 equal_value_frame equal_value_frame_swapped 1
           (Some "value") 5 0 small_profile None [7; 7] [7; 7] arr1 arr2 meta1 meta2 w1 w2);
    try reflexivity; try assumption.
  - apply perm_swap.
  - intros g v g' v' r c Hin Hin' _ _.
    destruct Hin as [[= _ <-]|[[= _ <-]|[]]]; destruct Hin' as [[= _ <-]|[[= _ <-]|[]]];
      reflexivity.
Defined.

Lemma ordinary_ignores_drift_witness :
  kriging 0 "value" (5, 4)%Z (0, 4, 0, 4) linear ordinary ["regional_linear"]
          (world_of [triangle_frame]) =
  kriging 0 "value" (5, 4)%Z (0, 4, 0, 4) linear ordinary ["point_log"; "specified"]
          (world_of [triangle_frame]).
Proof.
  apply (ordinary_kriging_ignores_drift_terms (world_of [triangle_frame]) 0 triangle_frame).
  - reflexivity.
  - exact triangle_valid.
  - intros term Hin. vm_compute. vm_compute in Hin. tauto.
Defined.

Lemma non_point_witness :
  kriging 0 "value" (5, 4)%Z (0, 4, 0, 2) linear ordinary ["regional_linear"]
          (world_of [overlap_frame]) =
  (Raise (Py.AttributeError [Py.Lit "object has no attribute 'x'"]),
   world_of [overlap_frame]).
Proof.
  apply (kriging_non_point_geometry_raises (world_of [overlap_frame]) 0 overlap_frame).
  - reflexivity.
  - unfold kriging_valid. split; [reflexivity|]. split; [vm_compute; tauto|].
    split; [reflexivity|]. split; [reflexivity|].
    intros term [<-|[]]. vm_compute. tauto.
  - exists (Box 0 0 3 2). split; [now left | reflexivity].
Defined.

Lemma geometry_as_value_column_witness :
  let w := world_of [square_frame] in
  rasterize_check square_frame 1 (Some "geometry") None = None /\
  exists e sh,
    rasterize_vector 0 1 (Some "geometry") 5 0 None None w =
    (Raise e, {| heap := heap w; trace := trace w ++ [EvRasterize sh] |}).
Proof.
  apply (rasterize_geometry_as_value_column (world_of [square_frame]) 0 square_frame 1 5 0
           None None).
  - reflexivity.
  - discriminate.
  - reflexivity.
  - discriminate.
Defined.

Lemma empty_frame_burn_witness :
  exists e,
    _rasterize_vector 0 (Some "value") 5 0 None 1 (world_of [empty_frame]) =
      (Raise e, world_of [empty_frame]) /\
    ((forall c, Some "value" = Some c -> In c (df_columns empty_frame)) ->
     e = Py.ValueError [Py.Lit "cannot convert float NaN to integer"]).
Proof.
  apply (_rasterize_vector_empty_frame_raises (world_of [empty_frame]) 0 empty_frame).
  - reflexivity.
  - reflexivity.
Defined.

(** Two frames whose coordinate systems have no EPSG code match; a frame
    without crs matches nothing. *)
Example matching_crs_examples :
  check_matching_crs [Some {| to_epsg := None |}; Some {| to_epsg := None |}] = true /\
  check_matching_crs [Some {| to_epsg := Some 3067%Z |}; Some {| to_epsg := Some 4326%Z |}]
    = false /\
  check_matching_crs [Some {| to_epsg := Some 3067%Z |}; None] = false.
Proof. repeat split; vm_compute; reflexivity. Qed.

End Examples.
